(** * Lua bindings of the parsed message part model (src/lua/lua_mimepart.c)

    A shallow embedding of the accessors that [lua_mimepart.c] registers
    for the classes [rspamd{textpart}] and [rspamd{mimepart}], and the
    properties of the part model that can be read off them.

    Conventions of the embedding.
    - A C pointer that the code tests against, or may find equal to, [NULL]
      is an [option]; the address carried by a view (a [start]/[begin]
      pointer) is a [Z].
    - A C string ([const gchar *]) is a [string]: the bytes before the
      terminating NUL.  [strcmp] is the three-way comparison of such strings.
      A Lua string is a [string] of any bytes, NUL included; the C string
      that [lua_tostring] hands to [strcmp] and to [%s] is [c_str] of it.
    - [guint] is a [Z] reduced modulo [2^32] wherever the code does
      arithmetic on it or stores a wider value in it; a [gsize] pushed with
      [lua_pushnumber] becomes the nearest double.
    - A Lua table is a table without a metatable, so that [lua_gettable]
      is a plain lookup.
    - Struct members are named [<struct abbreviation>_<member>].
    - A binding returns a [lua_outcome]: the values it pushed and returned,
      a Lua error raised with [luaL_error], or the dereference of a NULL
      pointer.
    - The [self] argument of a method is the pointer stored in the userdata
      box that [lua_check_textpart] / [lua_check_mimepart] unwrap; [None]
      is a box that holds [NULL]. *)

From stdpp Require Import base option list strings gmap.
From Stdlib Require Import ZArith Lia.

Set Warnings "-register-all".
Local Open Scope string_scope.
Local Open Scope Z_scope.

(** ** C data model *)

(** [GByteArray]: [{ guint8 *data; guint len; }]. *)
Record GByteArray := {
  ga_data : Z;
  ga_len : Z
}.

(** [rspamd_ftok_t]: [{ gsize len; const gchar *begin; }], a borrowed view. *)
Record rspamd_ftok_t := {
  tok_begin : Z;
  tok_len : Z
}.

(** [struct rspamd_process_exception]: only [type] and [len] are read here. *)
Record rspamd_process_exception := {
  ex_type : Z;
  ex_len : Z
}.

(** [struct rspamd_mime_text_part], restricted to the members that the
    bindings read.  [tp_exceptions] is the [GList *] (NULL is the empty
    list). *)
Record rspamd_mime_text_part := {
  tp_flags : Z;
  tp_language : option string;
  tp_raw : rspamd_ftok_t;
  tp_parsed : rspamd_ftok_t;
  tp_content : option GByteArray;
  tp_utf_raw_content : option GByteArray;
  tp_stripped_content : option GByteArray;
  tp_exceptions : list rspamd_process_exception;
  tp_nlines : Z;
  tp_spaces : Z;
  tp_non_spaces : Z;
  tp_double_spaces : Z;
  tp_empty_lines : Z;
  tp_non_ascii_chars : Z;
  tp_ascii_chars : Z;
  tp_capital_letters : Z;
  tp_numeric_characters : Z
}.

(** [struct rspamd_content_type_param]; a token of the content type is
    represented by the bytes it spans, its [len] being their number. *)
Record rspamd_content_type_param := {
  param_name : string;
  param_value : string
}.

(** [struct rspamd_content_type].  [ct_attrs] is the [GHashTable *]; its
    entries are listed in the order in which [g_hash_table_iter_next]
    yields them. *)
Record rspamd_content_type := {
  ct_type : string;
  ct_subtype : string;
  ct_charset : string;
  ct_boundary : string;
  ct_flags : Z;
  ct_attrs : option (list rspamd_content_type_param)
}.

(** [struct rspamd_mime_header]. *)
Record rspamd_mime_header := {
  hdr_name : string;
  hdr_value : string;
  hdr_decoded : string;
  hdr_tab_separated : bool;
  hdr_empty_separator : bool
}.

(** [struct rspamd_mime_part].  [mp_children] is [specific.mp.children], a
    [GPtrArray *]; [mp_headers_order] is the [GQueue *] whose [head] list
    is walked by [headers_foreach]. *)
Inductive rspamd_mime_part := Build_rspamd_mime_part {
  mp_ct : option rspamd_content_type;
  mp_flags : Z;
  mp_headers_order : option (list rspamd_mime_header);
  mp_children : option (list rspamd_mime_part)
}.

(** An opaque compiled regular expression ([rspamd_regexp_t *]). *)
Definition rspamd_regexp_t := Z.

(** [struct rspamd_lua_regexp]: [re] may be NULL. *)
Record rspamd_lua_regexp := {
  lre_re : option rspamd_regexp_t
}.

(** ** Lua values and outcomes *)

(** [struct rspamd_lua_text]: the zero-copy view handed to Lua. *)
Record rspamd_lua_text := {
  t_start : Z;
  t_len : Z;
  t_flags : Z
}.

(** The Lua values that the bindings receive and return.  [LTable] is a
    table with string keys and [LArray] a table filled at the slots
    [1 .. n]; neither has a metatable.  [LText], [LMimepart] and [LRegexp]
    are userdata of the classes [rspamd{text}], [rspamd{mimepart}] and
    [rspamd{regexp}]. *)
Inductive lua_value :=
| LNil
| LBoolean (b : bool)
| LNumber (n : Z)
| LString (s : string)
| LText (t : rspamd_lua_text)
| LMimepart (p : rspamd_mime_part)
| LRegexp (r : rspamd_lua_regexp)
| LTable (h : gmap string lua_value)
| LArray (a : list lua_value).

Inductive lua_outcome :=
| Return (vals : list lua_value)
| LuaError (msg : string)
| NullDeref.

(** Truth of a C [int] used as a condition. *)
Definition c_true (z : Z) : bool := negb (z =? 0).

(** [strcmp] on NUL-terminated strings. *)
Definition strcmp (a b : string) : Z :=
  match String.compare a b with
  | Eq => 0
  | Lt => -1
  | Gt => 1
  end.

(** [s[0] == '\0'] on a C string. *)
Definition first_char_is_nul (s : string) : bool :=
  match s with
  | EmptyString => true
  | String _ _ => false
  end.

(** [x.len] of a content-type token. *)
Definition ftok_len (s : string) : Z := Z.of_nat (String.length s).

(** Wrap-around of [guint] arithmetic. *)
Definition guint_wrap (z : Z) : Z := z mod 2 ^ 32.

(** The bytes of a Lua string before its first NUL byte. *)
Fixpoint c_str (s : string) : string :=
  match s with
  | EmptyString => EmptyString
  | String c rest =>
    if Ascii.eqb c Ascii.zero then EmptyString else String c (c_str rest)
  end.

(** [lua_tostring (L, i)] on a Lua string, as the C string it points to. *)
Definition lua_tostring (s : string) : string := c_str s.

(** The value that [lua_pushnumber (L, n)] pushes for a [gsize] [n]: the
    double nearest to [n], ties to the even mantissa.  Up to [2^53] every
    integer is a double. *)
Definition gsize_to_lua_number (n : Z) : Z :=
  if n <? 2 ^ 53 then n
  else
    let e := Z.log2 n - 52 in
    let q := n / 2 ^ e in
    let r := n mod 2 ^ e in
    let half := 2 ^ (e - 1) in
    let q' := if r <? half then q
              else if half <? r then q + 1
              else if Z.even q then q else q + 1 in
    q' * 2 ^ e.

(** [lua_settable] with a string key on a table under construction. *)
Definition lua_settable (k : string) (v : lua_value)
    (t : gmap string lua_value) : gmap string lua_value :=
  <[k := v]> t.

(** ** Declarations of headers that are not part of this file

    [libmime/message.h], [libmime/content_type.h] and [lua_common.h] define
    the macros, enumeration constants and helpers below; the bindings are
    embedded over any choice of them. *)
Class libmime_decls := {
  IS_PART_EMPTY : rspamd_mime_text_part -> Z;
  IS_PART_UTF : rspamd_mime_text_part -> Z;
  IS_CT_MULTIPART : option rspamd_content_type -> Z;
  RSPAMD_CONTENT_TYPE_BROKEN : Z;
  RSPAMD_EXCEPTION_URL : Z;
  rspamd_regexp_match : rspamd_regexp_t -> string -> bool;
  rspamd_lua_push_header : rspamd_mime_header -> bool -> bool -> lua_value
}.

Section Bindings.
Context {decls : libmime_decls}.

(** ** Text part methods *)

Definition lua_textpart_is_utf (part : option rspamd_mime_text_part)
    : lua_outcome :=
  match part with
  | None => Return [LBoolean false]
  | Some part =>
    if c_true (IS_PART_EMPTY part) then Return [LBoolean false]
    else Return [LBoolean (c_true (IS_PART_UTF part))]
  end.

(** [t = lua_newuserdata; t->start = start; t->len = len; t->flags = 0],
    for a [len] that fits the [guint] member [t->len]. *)
Definition push_text (start len : Z) : lua_outcome :=
  Return [LText {| t_start := start; t_len := len; t_flags := 0 |}].

(** The same for the view [tok]: its [gsize] length is stored in the
    [guint] member [t->len] of [struct rspamd_lua_text] ([lua_common.h]). *)
Definition ftok_text (tok : rspamd_ftok_t) : lua_outcome :=
  push_text (tok_begin tok) (guint_wrap (tok_len tok)).

(** [b->data], [b->len] through a [GByteArray *] that is not checked. *)
Definition byte_array_text (b : option GByteArray) : lua_outcome :=
  match b with
  | Some a => push_text (ga_data a) (ga_len a)
  | None => NullDeref
  end.

Definition lua_textpart_get_content (part : option rspamd_mime_text_part)
    (arg2 : lua_value) : lua_outcome :=
  match part with
  | None => Return [LNil]
  | Some part =>
    if c_true (IS_PART_EMPTY part) then Return [LNil]
    else
      let type :=
        match arg2 with
        | LString s => Some (lua_tostring s)
        | _ => None
        end in
      match type with
      | None => byte_array_text (tp_content part)
      | Some type =>
        if strcmp type "content" =? 0 then
          byte_array_text (tp_content part)
        else if strcmp type "content_oneline" =? 0 then
          byte_array_text (tp_stripped_content part)
        else if strcmp type "raw_parsed" =? 0 then
          ftok_text (tp_parsed part)
        else if strcmp type "raw_utf" =? 0 then
          byte_array_text (tp_utf_raw_content part)
        else if strcmp type "raw" =? 0 then
          ftok_text (tp_raw part)
        else
          LuaError (String.append "invalid content type: " type)
      end
  end.

Definition lua_textpart_get_raw_content (part : option rspamd_mime_text_part)
    : lua_outcome :=
  match part with
  | None => Return [LNil]
  | Some part =>
    if c_true (IS_PART_EMPTY part) then Return [LNil]
    else ftok_text (tp_raw part)
  end.

Definition lua_textpart_get_content_oneline
    (part : option rspamd_mime_text_part) : lua_outcome :=
  match part with
  | None => Return [LNil]
  | Some part =>
    if c_true (IS_PART_EMPTY part) then Return [LNil]
    else byte_array_text (tp_stripped_content part)
  end.

Definition lua_textpart_get_length (part : option rspamd_mime_text_part)
    : lua_outcome :=
  match part with
  | None => Return [LNil]
  | Some part =>
    if c_true (IS_PART_EMPTY part) then Return [LNumber 0]
    else
      match tp_content part with
      | None => Return [LNumber 0]
      | Some content => Return [LNumber (ga_len content)]
      end
  end.

(** The [for] loop of [get_urls_length]; [total] is a [guint]. *)
Fixpoint urls_length_loop (cur : list rspamd_process_exception) (total : Z)
    : Z :=
  match cur with
  | [] => total
  | ex :: cur' =>
    urls_length_loop cur'
      (if ex_type ex =? RSPAMD_EXCEPTION_URL
       then guint_wrap (total + ex_len ex)
       else total)
  end.

Definition lua_textpart_get_urls_length (part : option rspamd_mime_text_part)
    : lua_outcome :=
  match part with
  | None => Return [LNil]
  | Some part => Return [LNumber (urls_length_loop (tp_exceptions part) 0)]
  end.

Definition lua_textpart_get_lines_count (part : option rspamd_mime_text_part)
    : lua_outcome :=
  match part with
  | None => Return [LNil]
  | Some part =>
    if c_true (IS_PART_EMPTY part) then Return [LNumber 0]
    else Return [LNumber (tp_nlines part)]
  end.

Definition lua_textpart_get_language (part : option rspamd_mime_text_part)
    : lua_outcome :=
  match part with
  | Some part =>
    match tp_language part with
    | Some language =>
      if negb (first_char_is_nul language) then Return [LString language]
      else Return [LNil]
    | None => Return [LNil]
    end
  | None => LuaError "invalid arguments"
  end.

Definition lua_textpart_get_stats (part : option rspamd_mime_text_part)
    : lua_outcome :=
  match part with
  | Some part =>
    Return [LTable (
      lua_settable "numeric_characters" (LNumber (tp_numeric_characters part)) (
      lua_settable "capital_letters" (LNumber (tp_capital_letters part)) (
      lua_settable "non_ascii_characters" (LNumber (tp_non_ascii_chars part)) (
      lua_settable "ascii_characters" (LNumber (tp_ascii_chars part)) (
      lua_settable "double_spaces" (LNumber (tp_double_spaces part)) (
      lua_settable "non_spaces" (LNumber (tp_non_spaces part)) (
      lua_settable "spaces" (LNumber (tp_spaces part)) (
      lua_settable "empty_lines" (LNumber (tp_empty_lines part)) (
      lua_settable "lines" (LNumber (tp_nlines part)) ∅)))))))))]
  | None => LuaError "invalid arguments"
  end.

(** ** Mime part methods *)

(** The [while (g_hash_table_iter_next (...))] loop of [get_type_common]. *)
Fixpoint attrs_loop (it : list rspamd_content_type_param)
    (t : gmap string lua_value) : gmap string lua_value :=
  match it with
  | [] => t
  | param :: it' =>
    attrs_loop it'
      (if (0 <? ftok_len (param_name param))
          && (0 <? ftok_len (param_name param))
       then lua_settable (param_name param) (LString (param_value param)) t
       else t)
  end.

Definition lua_mimepart_get_type_common (part : option rspamd_mime_part)
    (full : bool) : lua_outcome :=
  match part with
  | None => Return [LNil; LNil]
  | Some part =>
    match mp_ct part with
    | None => NullDeref
    | Some ct =>
      if negb full then
        Return [LString (ct_type ct); LString (ct_subtype ct)]
      else
        let t : gmap string lua_value := ∅ in
        let t :=
          if 0 <? ftok_len (ct_charset ct)
          then lua_settable "charset" (LString (ct_charset ct)) t
          else t in
        let t :=
          if 0 <? ftok_len (ct_boundary ct)
          then lua_settable "charset" (LString (ct_boundary ct)) t
          else t in
        let t :=
          match ct_attrs ct with
          | Some attrs => attrs_loop attrs t
          | None => t
          end in
        Return [LString (ct_type ct); LString (ct_subtype ct); LTable t]
    end
  end.

Definition lua_mimepart_get_type (part : option rspamd_mime_part)
    : lua_outcome :=
  lua_mimepart_get_type_common part false.

Definition lua_mimepart_get_type_full (part : option rspamd_mime_part)
    : lua_outcome :=
  lua_mimepart_get_type_common part true.

Definition lua_mimepart_is_multipart (part : option rspamd_mime_part)
    : lua_outcome :=
  match part with
  | None => LuaError "invalid arguments"
  | Some part => Return [LBoolean (c_true (IS_CT_MULTIPART (mp_ct part)))]
  end.

Definition lua_mimepart_is_broken (part : option rspamd_mime_part)
    : lua_outcome :=
  match part with
  | None => LuaError "invalid arguments"
  | Some part =>
    match mp_ct part with
    | Some ct =>
      Return [LBoolean
                (c_true (Z.land (ct_flags ct) RSPAMD_CONTENT_TYPE_BROKEN))]
    | None => Return [LBoolean true]
    end
  end.

(** [PTR_ARRAY_FOREACH] fills slots [1 .. len] of the new table with one
    [rspamd{mimepart}] userdata per child, in array order. *)
Definition lua_mimepart_get_children (part : option rspamd_mime_part)
    : lua_outcome :=
  match part with
  | None => LuaError "invalid arguments"
  | Some part =>
    if negb (c_true (IS_CT_MULTIPART (mp_ct part))) then Return [LNil]
    else
      match mp_children part with
      | None => Return [LNil]
      | Some children => Return [LArray (LMimepart <$> children)]
      end
  end.

(** *** Header iteration

    A Lua function is run by [lua_pcall]; it may change the state [S] of the
    interpreter, and either fails or returns a list of values. *)
Inductive pcall_result :=
| PcallFailed (err : string)
| PcallReturned (rets : list lua_value).

Definition lua_callback (S : Type) : Type :=
  S -> list lua_value -> S * pcall_result.

(** One call of the callback, as observed from outside. *)
Record invocation := {
  inv_header : rspamd_mime_header;
  inv_args : list lua_value;
  inv_result : pcall_result
}.

Definition lua_istable (v : lua_value) : bool :=
  match v with
  | LTable _ | LArray _ => true
  | _ => false
  end.

Definition lua_isuserdata (v : lua_value) : bool :=
  match v with
  | LText _ | LMimepart _ | LRegexp _ => true
  | _ => false
  end.

(** [lua_pushstring (L, k); lua_gettable (L, 3)] on a table without a
    metatable, the only tables among the [lua_value]s: a plain lookup,
    which runs no metamethod. *)
Definition lua_gettable (t : lua_value) (k : string) : lua_value :=
  match t with
  | LTable h => default LNil (h !! k)
  | _ => LNil
  end.

(** [if (lua_isboolean (L, -1)) b = lua_toboolean (L, -1);] *)
Definition opt_boolean (v : lua_value) (b : bool) : bool :=
  match v with
  | LBoolean b' => b'
  | _ => b
  end.

(** The test made on what the callback returned: a first result that is
    the boolean [true]. *)
Definition signals_stop (r : pcall_result) : bool :=
  match r with
  | PcallReturned (LBoolean true :: _) => true
  | _ => false
  end.

(** The loop is left after this call: the call failed or signalled stop. *)
Definition leaves_loop (r : pcall_result) : bool :=
  match r with
  | PcallFailed _ => true
  | PcallReturned _ => signals_stop r
  end.

(** [re && re->re && !rspamd_regexp_match (re->re, hdr->name, ...)]. *)
Definition regexp_skips (re : option rspamd_lua_regexp)
    (hdr : rspamd_mime_header) : bool :=
  match re with
  | Some r =>
    match lre_re r with
    | Some rx => negb (rspamd_regexp_match rx (hdr_name hdr))
    | None => false
    end
  | None => false
  end.

(** The [while (cur)] loop; the second component lists the calls made, in
    the order in which they were made. *)
Fixpoint headers_loop {S : Type} (cb : lua_callback S)
    (re : option rspamd_lua_regexp) (full raw : bool)
    (cur : list rspamd_mime_header) (st : S) : S * list invocation :=
  match cur with
  | [] => (st, [])
  | hdr :: next =>
    if regexp_skips re hdr then headers_loop cb re full raw next st
    else
      let args := [LString (hdr_name hdr);
                   rspamd_lua_push_header hdr full raw] in
      let '(st', r) := cb st args in
      let inv := {| inv_header := hdr; inv_args := args; inv_result := r |} in
      if leaves_loop r then (st', [inv])
      else
        let '(st'', invs) := headers_loop cb re full raw next st' in
        (st'', inv :: invs)
  end.

(** The [if (lua_istable (L, 3)) { ... }] block: the values of [full],
    [raw] and [re] after it.  [rspamd_lua_check_udata] yields NULL for a
    userdata of another class, and the code reads through that pointer. *)
Definition foreach_params (arg3 : lua_value)
    : option (bool * bool * option rspamd_lua_regexp) :=
  if lua_istable arg3 then
    let full := opt_boolean (lua_gettable arg3 "full") false in
    let raw := opt_boolean (lua_gettable arg3 "raw") false in
    let v := lua_gettable arg3 "regexp" in
    if lua_isuserdata v then
      match v with
      | LRegexp r => Some (full, raw, Some r)
      | _ => None
      end
    else Some (full, raw, None)
  else Some (false, false, None).

(** [arg2] is the callback when argument 2 is a function; [arg3] is
    argument 3.  The result is the final interpreter state, the calls made
    and the outcome ([return 0]). *)
Definition lua_mimepart_headers_foreach {S : Type}
    (part : option rspamd_mime_part) (arg2 : option (lua_callback S))
    (arg3 : lua_value) (st : S) : S * list invocation * lua_outcome :=
  match part, arg2 with
  | Some part, Some cb =>
    match foreach_params arg3 with
    | None => (st, [], NullDeref)
    | Some (full, raw, re) =>
      match mp_headers_order part with
      | Some headers_order =>
        let '(st', invs) := headers_loop cb re full raw headers_order st in
        (st', invs, Return [])
      | None => (st, [], Return [])
      end
    end
  | _, _ => (st, [], Return [])
  end.

(** ** Reference quantities used to state the properties *)

(** Sum of the [len] of the exceptions of kind url, as an integer. *)
Definition url_bytes (exs : list rspamd_process_exception) : Z :=
  foldr Z.add 0
    (ex_len <$> filter (λ ex, ex_type ex = RSPAMD_EXCEPTION_URL) exs).

(** The header records of a part, in insertion order. *)
Definition part_headers (part : rspamd_mime_part)
    : list rspamd_mime_header :=
  default [] (mp_headers_order part).

(** The records that the traversal is asked to visit: all of them, or those
    whose name matches the [regexp] parameter. *)
Definition selected_headers (arg3 : lua_value) (part : rspamd_mime_part)
    : list rspamd_mime_header :=
  match foreach_params arg3 with
  | Some (_, _, re) =>
    filter (λ hdr, regexp_skips re hdr = false) (part_headers part)
  | None => []
  end.

(** The records that the parameters ask for, read off the parameter table:
    those whose name the compiled [regexp] matches, or all of them when
    no compiled regexp is given. *)
Definition requested_headers (arg3 : lua_value) (part : rspamd_mime_part)
    : list rspamd_mime_header :=
  match lua_gettable arg3 "regexp" with
  | LRegexp {| lre_re := Some rx |} =>
    filter (λ hdr, rspamd_regexp_match rx (hdr_name hdr) = true)
      (part_headers part)
  | _ => part_headers part
  end.

(** The calls made by [headers_foreach]. *)
Definition foreach_calls {S : Type} (part : rspamd_mime_part)
    (cb : lua_callback S) (arg3 : lua_value) (st : S) : list invocation :=
  (lua_mimepart_headers_foreach (Some part) (Some cb) arg3 st).1.2.

(** The part's content type was flagged malformed by its parser, or the
    part has no content type. *)
Definition malformed_or_missing_ct (part : rspamd_mime_part) : Prop :=
  match mp_ct part with
  | Some ct => Z.land (ct_flags ct) RSPAMD_CONTENT_TYPE_BROKEN ≠ 0
  | None => True
  end.

(** The generic attributes of a content type, in iteration order. *)
Definition ct_attr_list (ct : rspamd_content_type)
    : list rspamd_content_type_param :=
  default [] (ct_attrs ct).

(** The names that [get_content] recognises. *)
Definition content_variants : list string :=
  ["content"; "content_oneline"; "raw"; "raw_parsed"; "raw_utf"].

End Bindings.

(** ** Concrete declarations and parts

    One choice of the external declarations, on which the bindings can be
    run: flags are single bits of the [flags] words, [IS_CT_MULTIPART]
    guards against a missing content type, the toy matcher accepts the
    names of the length it stands for, and a header is pushed as its
    decoded value, its raw value or a table of its members. *)
#[export] Instance sample_decls : libmime_decls := {|
  IS_PART_EMPTY := λ part, Z.land (tp_flags part) 4;
  IS_PART_UTF := λ part, Z.land (tp_flags part) 1;
  IS_CT_MULTIPART := λ ct,
    match ct with
    | Some c => Z.land (ct_flags c) 2
    | None => 0
    end;
  RSPAMD_CONTENT_TYPE_BROKEN := 1;
  RSPAMD_EXCEPTION_URL := 1;
  rspamd_regexp_match := λ rx name, Z.of_nat (String.length name) =? rx;
  rspamd_lua_push_header := λ hdr full raw,
    if full then
      LTable (<["name" := LString (hdr_name hdr)]>
              (<["value" := LString (hdr_value hdr)]>
               (<["decoded" := LString (hdr_decoded hdr)]>
                (<["tab_separated" := LBoolean (hdr_tab_separated hdr)]>
                 (<["empty_separator" :=
                      LBoolean (hdr_empty_separator hdr)]> ∅)))))
    else if raw then LString (hdr_value hdr)
    else LString (hdr_decoded hdr)
|}.

(** A text part over a 40-byte body whose cleaned text is 25 bytes long. *)
Definition sample_text_part : rspamd_mime_text_part := {|
  tp_flags := 1;
  tp_language := Some "en";
  tp_raw := {| tok_begin := 4096; tok_len := 52 |};
  tp_parsed := {| tok_begin := 8192; tok_len := 40 |};
  tp_content := Some {| ga_data := 12288; ga_len := 25 |};
  tp_utf_raw_content := Some {| ga_data := 16384; ga_len := 40 |};
  tp_stripped_content := Some {| ga_data := 20480; ga_len := 23 |};
  tp_exceptions := [{| ex_type := 1; ex_len := 18 |};
                    {| ex_type := 0; ex_len := 1 |};
                    {| ex_type := 1; ex_len := 7 |}];
  tp_nlines := 3;
  tp_spaces := 4;
  tp_non_spaces := 21;
  tp_double_spaces := 0;
  tp_empty_lines := 0;
  tp_non_ascii_chars := 0;
  tp_ascii_chars := 25;
  tp_capital_letters := 2;
  tp_numeric_characters := 0
|}.

(** The same part with both the empty and the utf flag set. *)
Definition sample_empty_part : rspamd_mime_text_part := {|
  tp_flags := 5;
  tp_language := tp_language sample_text_part;
  tp_raw := tp_raw sample_text_part;
  tp_parsed := tp_parsed sample_text_part;
  tp_content := tp_content sample_text_part;
  tp_utf_raw_content := tp_utf_raw_content sample_text_part;
  tp_stripped_content := tp_stripped_content sample_text_part;
  tp_exceptions := tp_exceptions sample_text_part;
  tp_nlines := 3;
  tp_spaces := 4;
  tp_non_spaces := 21;
  tp_double_spaces := 0;
  tp_empty_lines := 0;
  tp_non_ascii_chars := 0;
  tp_ascii_chars := 25;
  tp_capital_letters := 2;
  tp_numeric_characters := 0
|}.

(** A part whose two url spans are [2^31] bytes long each. *)
Definition sample_huge_urls_part : rspamd_mime_text_part := {|
  tp_flags := 1;
  tp_language := None;
  tp_raw := {| tok_begin := 4096; tok_len := 0 |};
  tp_parsed := {| tok_begin := 4096; tok_len := 0 |};
  tp_content := None;
  tp_utf_raw_content := None;
  tp_stripped_content := None;
  tp_exceptions := [{| ex_type := 1; ex_len := 2147483648 |};
                    {| ex_type := 1; ex_len := 2147483648 |}];
  tp_nlines := 0;
  tp_spaces := 0;
  tp_non_spaces := 0;
  tp_double_spaces := 0;
  tp_empty_lines := 0;
  tp_non_ascii_chars := 0;
  tp_ascii_chars := 0;
  tp_capital_letters := 0;
  tp_numeric_characters := 0
|}.

Definition sample_headers : list rspamd_mime_header :=
  [ {| hdr_name := "X-A"; hdr_value := "1"; hdr_decoded := "1";
       hdr_tab_separated := false; hdr_empty_separator := false |};
    {| hdr_name := "X-A"; hdr_value := "2"; hdr_decoded := "2";
       hdr_tab_separated := false; hdr_empty_separator := false |};
    {| hdr_name := "X-B"; hdr_value := "3"; hdr_decoded := "3";
       hdr_tab_separated := true; hdr_empty_separator := false |} ].

Definition sample_leaf (subtype : string) : rspamd_mime_part := {|
  mp_ct := Some {| ct_type := "text"; ct_subtype := subtype;
                   ct_charset := "utf-8"; ct_boundary := "";
                   ct_flags := 4; ct_attrs := None |};
  mp_flags := 1;
  mp_headers_order := Some sample_headers;
  mp_children := None
|}.

(** [multipart/mixed; charset=utf-8; boundary=frontier], with or without
    children and generic attributes. *)
Definition sample_multipart
    (attrs : option (list rspamd_content_type_param))
    (children : option (list rspamd_mime_part)) : rspamd_mime_part := {|
  mp_ct := Some {| ct_type := "multipart"; ct_subtype := "mixed";
                   ct_charset := "utf-8"; ct_boundary := "frontier";
                   ct_flags := 2; ct_attrs := attrs |};
  mp_flags := 0;
  mp_headers_order := None;
  mp_children := children
|}.

(** A callback that counts its calls in the interpreter state and asks to
    stop when it is shown the value ["2"]. *)
Definition sample_callback : lua_callback nat :=
  λ n args,
    (Datatypes.S n,
     match args with
     | [_; LString "2"] => PcallReturned [LBoolean true]
     | _ => PcallReturned []
     end).

(** ** Further bindings

    The accessors below read members of the two part structures that the
    bindings above do not touch; each takes the part restricted to the
    members it reads. *)

(** A text part with its [normalized_words] member, a [GArray *] of
    [rspamd_stat_token_t]; a token is represented by the bytes it spans. *)
Record rspamd_mime_text_part_words := {
  tw_part : rspamd_mime_text_part;
  tw_normalized_words : option (list string)
}.

(** [struct rspamd_content_disposition]: only [filename] is read here. *)
Record rspamd_content_disposition := {
  cd_filename : string
}.

(** The members [parsed_data], [raw_data] and [cd] of
    [struct rspamd_mime_part]. *)
Record rspamd_mime_part_data := {
  mpd_parsed_data : rspamd_ftok_t;
  mpd_raw_data : rspamd_ftok_t;
  mpd_cd : option rspamd_content_disposition
}.

Section MoreBindings.
Context {decls : libmime_decls}.

Definition lua_textpart_get_raw_length (part : option rspamd_mime_text_part)
    : lua_outcome :=
  match part with
  | None => Return [LNil]
  | Some part =>
    Return [LNumber (gsize_to_lua_number (tok_len (tp_raw part)))]
  end.

Definition lua_textpart_is_empty (part : option rspamd_mime_text_part)
    : lua_outcome :=
  match part with
  | None => Return [LNil]
  | Some part => Return [LBoolean (c_true (IS_PART_EMPTY part))]
  end.

Definition lua_textpart_get_words_count
    (part : option rspamd_mime_text_part_words) : lua_outcome :=
  match part with
  | None => Return [LNil]
  | Some part =>
    if c_true (IS_PART_EMPTY (tw_part part)) then Return [LNumber 0]
    else
      match tw_normalized_words part with
      | None => Return [LNumber 0]
      | Some normalized_words =>
        Return [LNumber (Z.of_nat (length normalized_words))]
      end
  end.

(** The [for] loop sets slot [i + 1] of the new table to word [i]. *)
Definition lua_textpart_get_words
    (part : option rspamd_mime_text_part_words) : lua_outcome :=
  match part with
  | None => LuaError "invalid arguments"
  | Some part =>
    if c_true (IS_PART_EMPTY (tw_part part)) then Return [LArray []]
    else
      match tw_normalized_words part with
      | None => Return [LArray []]
      | Some normalized_words => Return [LArray (LString <$> normalized_words)]
      end
  end.

Definition lua_mimepart_get_content (part : option rspamd_mime_part_data)
    : lua_outcome :=
  match part with
  | None => Return [LNil]
  | Some part => ftok_text (mpd_parsed_data part)
  end.

Definition lua_mimepart_get_raw_content (part : option rspamd_mime_part_data)
    : lua_outcome :=
  match part with
  | None => Return [LNil]
  | Some part => ftok_text (mpd_raw_data part)
  end.

Definition lua_mimepart_get_length (part : option rspamd_mime_part_data)
    : lua_outcome :=
  match part with
  | None => Return [LNil]
  | Some part =>
    Return [LNumber (gsize_to_lua_number (tok_len (mpd_parsed_data part)))]
  end.

Definition lua_mimepart_get_filename (part : option rspamd_mime_part_data)
    : lua_outcome :=
  match part with
  | None => Return [LNil]
  | Some part =>
    match mpd_cd part with
    | None => Return [LNil]
    | Some cd =>
      if ftok_len (cd_filename cd) =? 0 then Return [LNil]
      else Return [LString (cd_filename cd)]
    end
  end.

(** *** Reference notions for the further properties *)

(** The keys that [get_stats] sets. *)
Definition stats_keys : list string :=
  ["lines"; "empty_lines"; "spaces"; "non_spaces"; "double_spaces";
   "ascii_characters"; "non_ascii_characters"; "capital_letters";
   "numeric_characters"].

(** Running the callback on the recorded arguments, from state [st], gives
    the recorded results and ends in state [st_end]. *)
Fixpoint replays {S : Type} (cb : lua_callback S) (st : S)
    (invs : list invocation) (st_end : S) : Prop :=
  match invs with
  | [] => st_end = st
  | inv :: rest =>
    ∃ st', cb st (inv_args inv) = (st', inv_result inv)
           ∧ replays cb st' rest st_end
  end.

(** The callback never fails and never returns the boolean [true] first. *)
Definition never_leaves {S : Type} (cb : lua_callback S) : Prop :=
  ∀ st args, leaves_loop (cb st args).2 = false.

End MoreBindings.

(** A text part with three words, and a mime part with a named
    attachment. *)
Definition sample_words_part : rspamd_mime_text_part_words := {|
  tw_part := sample_text_part;
  tw_normalized_words := Some ["hello"; "wide"; "world"]
|}.

Definition sample_part_data : rspamd_mime_part_data := {|
  mpd_parsed_data := {| tok_begin := 8192; tok_len := 40 |};
  mpd_raw_data := {| tok_begin := 4096; tok_len := 52 |};
  mpd_cd := Some {| cd_filename := "report.pdf" |}
|}.

(** A callback that counts its calls and returns the number [1]. *)
Definition counting_callback : lua_callback nat :=
  λ n _, (Datatypes.S n, PcallReturned [LNumber 1]).

(** A callback whose results are, call after call, [false], a number, a
    string and then nothing. *)
Definition mixed_callback : lua_callback nat :=
  λ n _,
    (Datatypes.S n,
     PcallReturned
       match n with
       | O => [LBoolean false]
       | 1%nat => [LNumber 1]
       | 2%nat => [LString "true"]
       | _ => []
       end).

(** The Lua string of the five bytes [r], [a], [w], NUL, [x]. *)
Definition sample_nul_name : string :=
  String.append "raw" (String Ascii.zero "x").

(** A callback that fails when it is shown the value ["2"]. *)
Definition failing_callback : lua_callback nat :=
  λ n args,
    (Datatypes.S n,
     match args with
     | [_; LString "2"] => PcallFailed "attempt to call a nil value"
     | _ => PcallReturned []
     end).

(** The sample text part with another exception list. *)
Definition sample_part_with_exceptions
    (exs : list rspamd_process_exception) : rspamd_mime_text_part := {|
  tp_flags := 1;
  tp_language := tp_language sample_text_part;
  tp_raw := tp_raw sample_text_part;
  tp_parsed := tp_parsed sample_text_part;
  tp_content := tp_content sample_text_part;
  tp_utf_raw_content := tp_utf_raw_content sample_text_part;
  tp_stripped_content := tp_stripped_content sample_text_part;
  tp_exceptions := exs;
  tp_nlines := 3;
  tp_spaces := 4;
  tp_non_spaces := 21;
  tp_double_spaces := 0;
  tp_empty_lines := 0;
  tp_non_ascii_chars := 0;
  tp_ascii_chars := 25;
  tp_capital_letters := 2;
  tp_numeric_characters := 0
|}.

(** A part for which no content type could be derived. *)
Definition sample_untyped_part
    (headers_order : option (list rspamd_mime_header)) : rspamd_mime_part := {|
  mp_ct := None;
  mp_flags := 0;
  mp_headers_order := headers_order;
  mp_children := None
|}.

Definition sample_late_header : rspamd_mime_header :=
  {| hdr_name := "X-C"; hdr_value := "4"; hdr_decoded := "4";
     hdr_tab_separated := false; hdr_empty_separator := false |}.

(** ** Properties *)

Section Properties.
Context {decls : libmime_decls}.

Lemma string_compare_refl (a : string) : String.compare a a = Eq.
Proof.
  induction a as [|c a IH]; simpl; [done|].
  unfold Ascii.compare. by rewrite N.compare_refl.
Qed.

Lemma strcmp_zero (a b : string) : (strcmp a b =? 0) = true <-> a = b.
Proof.
  unfold strcmp. split.
  - intros E. apply String.compare_eq_iff.
    by destruct (String.compare a b).
  - intros ->. by rewrite string_compare_refl.
Qed.

Lemma strcmp_nonzero (a b : string) : a ≠ b -> (strcmp a b =? 0) = false.
Proof.
  intros Hne. destruct (strcmp a b =? 0) eqn:E; [|done].
  apply strcmp_zero in E. contradiction.
Qed.

Lemma strcmp_refl (a : string) : (strcmp a a =? 0) = true.
Proof. by apply strcmp_zero. Qed.

Lemma c_true_false (z : Z) : c_true z = false <-> z = 0.
Proof. unfold c_true. destruct (Z.eqb_spec z 0); simpl; split; congruence. Qed.

Lemma c_true_true (z : Z) : c_true z = true <-> z ≠ 0.
Proof. unfold c_true. destruct (Z.eqb_spec z 0); simpl; split; congruence. Qed.

Lemma byte_array_text_inj (a b : option GByteArray) :
  byte_array_text a = byte_array_text b -> a = b.
Proof.
  destruct a as [[da la]|], b as [[db lb]|]; simpl; unfold push_text;
    intros E; try discriminate; [|done].
  by simplify_eq.
Qed.

(** A name whose C string is outside the recognised ones falls through
    every comparison. *)
Lemma get_content_unrecognised (part : rspamd_mime_text_part) (type : string) :
  c_true (IS_PART_EMPTY part) = false ->
  c_str type ∉ content_variants ->
  lua_textpart_get_content (Some part) (LString type)
  = LuaError (String.append "invalid content type: " (c_str type)).
Proof.
  intros Hne Hout. unfold lua_textpart_get_content, lua_tostring.
  rewrite Hne. unfold content_variants in Hout.
  rewrite !not_elem_of_cons in Hout.
  destruct Hout as (H1 & H2 & H3 & H4 & H5 & _).
  by rewrite !strcmp_nonzero.
Qed.

(** C9: a text part whose empty flag is set is never reported as utf,
    whatever its utf flag says. *)
Theorem is_utf_false_when_empty (part : rspamd_mime_text_part) :
  IS_PART_EMPTY part ≠ 0 ->
  lua_textpart_is_utf (Some part) = Return [LBoolean false].
Proof.
  intros Hempty. unfold lua_textpart_is_utf.
  apply c_true_true in Hempty. by rewrite Hempty.
Qed.

(** C10: [get_language] returns one value; it is absent exactly when the
    language member is NULL or the empty string, and a value that is not
    absent is the stored string, which is not empty. *)
Theorem get_language_absent_or_nonempty (part : rspamd_mime_text_part) :
  ∃ v, lua_textpart_get_language (Some part) = Return [v]
       ∧ (v = LNil
          <-> tp_language part = None ∨ tp_language part = Some "")
       ∧ (v ≠ LNil ->
          ∃ s, v = LString s ∧ s ≠ "" ∧ tp_language part = Some s).
Proof.
  unfold lua_textpart_get_language.
  destruct (tp_language part) as [[|c rest]|]; simpl.
  - exists LNil. repeat split; auto. done.
  - exists (LString (String c rest)). split; [done|]. split.
    + split; [discriminate|]. intros [|]; discriminate.
    + intros _. by eexists.
  - exists LNil. repeat split; auto. done.
Qed.

(** C3: [is_broken] answers with a boolean, which is true exactly when the
    content type carries the broken flag or the part has no content type. *)
Theorem is_broken_iff_malformed_or_missing (part : rspamd_mime_part) :
  ∃ b, lua_mimepart_is_broken (Some part) = Return [LBoolean b]
       ∧ (b = true <-> malformed_or_missing_ct part)
       ∧ (malformed_or_missing_ct part
          <-> mp_ct part = None
              ∨ ∃ ct, mp_ct part = Some ct
                      ∧ Z.land (ct_flags ct) RSPAMD_CONTENT_TYPE_BROKEN ≠ 0).
Proof.
  unfold lua_mimepart_is_broken, malformed_or_missing_ct.
  destruct (mp_ct part) as [ct|].
  - eexists. split; [reflexivity|]. split.
    + apply c_true_true.
    + split.
      * intros Hb. right. by exists ct.
      * intros [|(ct' & [= <-] & Hb)]; done.
  - exists true. repeat split; auto.
Qed.

(** C7 (amended): on a part that is not empty, a variant name whose
    bytes before the first NUL byte are none of the five recognised names
    raises a Lua error, which is neither the absent result nor any
    returned value. *)
Theorem get_content_unknown_variant_is_error
    (part : rspamd_mime_text_part) (type : string) :
  IS_PART_EMPTY part = 0 ->
  c_str type ∉ content_variants ->
  lua_textpart_get_content (Some part) (LString type)
  = LuaError (String.append "invalid content type: " (c_str type))
  ∧ lua_textpart_get_content (Some part) (LString type) ≠ Return [LNil]
  ∧ ∀ vals, lua_textpart_get_content (Some part) (LString type) ≠ Return vals.
Proof.
  intros Hne Hout. apply c_true_false in Hne.
  rewrite (get_content_unrecognised part type Hne Hout).
  repeat split; intros; discriminate.
Qed.

(** C1 (amended): on a part that is not empty, [get_content] reads its
    string argument up to the first NUL byte and maps the five names to
    the views of [content], [stripped_content], [raw], [parsed] and
    [utf_raw_content] (start pointer, length, flags [0]; the [gsize]
    lengths of [raw] and [parsed] modulo [2^32]), takes an argument that is
    not a string for ["content"], and rejects every other name;
    ["content"] and ["raw_utf"] read two different members and give the
    same answer exactly when those members are equal. *)
Theorem get_content_dispatch (part : rspamd_mime_text_part) :
  IS_PART_EMPTY part = 0 ->
  let get := lua_textpart_get_content (Some part) in
  let text := λ start len : Z,
    Return [LText {| t_start := start; t_len := len; t_flags := 0 |}] in
  let bytes := λ b : option GByteArray,
    match b with
    | Some a => text (ga_data a) (ga_len a)
    | None => NullDeref
    end in
  (∀ s, c_str s = "content" -> get (LString s) = bytes (tp_content part))
  ∧ (∀ s, c_str s = "content_oneline" ->
          get (LString s) = bytes (tp_stripped_content part))
  ∧ (∀ s, c_str s = "raw" ->
          get (LString s)
          = text (tok_begin (tp_raw part)) (tok_len (tp_raw part) mod 2 ^ 32))
  ∧ (∀ s, c_str s = "raw_parsed" ->
          get (LString s)
          = text (tok_begin (tp_parsed part))
              (tok_len (tp_parsed part) mod 2 ^ 32))
  ∧ (∀ s, c_str s = "raw_utf" ->
          get (LString s) = bytes (tp_utf_raw_content part))
  ∧ (∀ v, (∀ s, v ≠ LString s) -> get v = bytes (tp_content part))
  ∧ (∀ s, c_str s ∉ content_variants ->
          get (LString s)
          = LuaError (String.append "invalid content type: " (c_str s)))
  ∧ (get (LString "content") = get (LString "raw_utf")
     <-> tp_content part = tp_utf_raw_content part).
Proof.
  intros Hne get text bytes. apply c_true_false in Hne.
  assert (Hbytes : ∀ b, byte_array_text b = bytes b).
  { by intros [a|]. }
  assert (Hnamed : ∀ s name,
            c_str s = name ->
            get (LString s)
            = if strcmp name "content" =? 0 then bytes (tp_content part)
              else if strcmp name "content_oneline" =? 0
                   then bytes (tp_stripped_content part)
              else if strcmp name "raw_parsed" =? 0
                   then text (tok_begin (tp_parsed part))
                          (tok_len (tp_parsed part) mod 2 ^ 32)
              else if strcmp name "raw_utf" =? 0
                   then bytes (tp_utf_raw_content part)
              else if strcmp name "raw" =? 0
                   then text (tok_begin (tp_raw part))
                          (tok_len (tp_raw part) mod 2 ^ 32)
              else LuaError (String.append "invalid content type: " name)).
  { intros s name <-. unfold get, lua_textpart_get_content, lua_tostring.
    rewrite Hne, !Hbytes. reflexivity. }
  split; [by intros s Hs; rewrite (Hnamed s _ Hs)|].
  split; [by intros s Hs; rewrite (Hnamed s _ Hs)|].
  split; [by intros s Hs; rewrite (Hnamed s _ Hs)|].
  split; [by intros s Hs; rewrite (Hnamed s _ Hs)|].
  split; [by intros s Hs; rewrite (Hnamed s _ Hs)|].
  split.
  { intros v Hv. unfold get, lua_textpart_get_content. rewrite Hne.
    destruct v; try apply Hbytes. by destruct (Hv s). }
  split.
  { intros s Hs. by apply get_content_unrecognised. }
  rewrite (Hnamed "content" "content" eq_refl),
    (Hnamed "raw_utf" "raw_utf" eq_refl). simpl. split.
  - destruct (tp_content part) as [[d l]|],
      (tp_utf_raw_content part) as [[d' l']|]; simpl; unfold text;
      intros E; by simplify_eq.
  - by intros ->.
Qed.

(** *** Child parts *)

(** C4 (amended): [get_children] is absent exactly when the content type is
    not multipart or the child array is NULL; otherwise it is the table of
    all the children, in array order and of the array's length, which is
    the empty table for an empty array. *)
Theorem get_children_absent_or_all (part : rspamd_mime_part) :
  (lua_mimepart_get_children (Some part) = Return [LNil]
   <-> IS_CT_MULTIPART (mp_ct part) = 0 ∨ mp_children part = None)
  ∧ (∀ children,
       IS_CT_MULTIPART (mp_ct part) ≠ 0 ->
       mp_children part = Some children ->
       lua_mimepart_get_children (Some part)
       = Return [LArray (LMimepart <$> children)]
       ∧ length (LMimepart <$> children) = length children
       ∧ ∀ (i : nat) child,
           children !! i = Some child
           <-> (LMimepart <$> children) !! i = Some (LMimepart child)).
Proof.
  unfold lua_mimepart_get_children. split.
  - destruct (c_true (IS_CT_MULTIPART (mp_ct part))) eqn:E; simpl.
    + apply c_true_true in E.
      destruct (mp_children part) as [children|].
      * split; [discriminate|]. intros [E0|E0]; [contradiction|discriminate].
      * split; [by right|done].
    + apply c_true_false in E. split; auto.
  - intros children Hmp ->. apply c_true_true in Hmp. rewrite Hmp. simpl.
    split; [done|]. split; [by rewrite length_fmap|].
    intros i child. rewrite list_lookup_fmap.
    destruct (children !! i); simpl; split; intros E; by simplify_eq.
Qed.

(** *** Length of the urls *)

Lemma url_bytes_cons (ex : rspamd_process_exception)
    (exs : list rspamd_process_exception) :
  url_bytes (ex :: exs)
  = (if ex_type ex =? RSPAMD_EXCEPTION_URL then ex_len ex else 0)
    + url_bytes exs.
Proof.
  unfold url_bytes. rewrite filter_cons.
  destruct (Z.eqb_spec (ex_type ex) RSPAMD_EXCEPTION_URL) as [E|E];
    destruct (decide (ex_type ex = RSPAMD_EXCEPTION_URL)); done.
Qed.

Lemma urls_length_loop_mod (exs : list rspamd_process_exception) (total : Z) :
  0 ≤ total < 2 ^ 32 ->
  urls_length_loop exs total = (total + url_bytes exs) mod 2 ^ 32.
Proof.
  revert total. induction exs as [|ex exs IH]; intros total Hrange.
  - simpl. unfold url_bytes. simpl. rewrite Z.add_0_r.
    symmetry. by apply Z.mod_small.
  - simpl. rewrite url_bytes_cons.
    destruct (ex_type ex =? RSPAMD_EXCEPTION_URL).
    + rewrite IH by (unfold guint_wrap; apply Z.mod_pos_bound; lia).
      unfold guint_wrap. rewrite Z.add_mod_idemp_l by lia.
      f_equal. lia.
    + rewrite IH by done. f_equal.
Qed.

Lemma url_bytes_no_url (exs : list rspamd_process_exception) :
  Forall (λ ex, ex_type ex ≠ RSPAMD_EXCEPTION_URL) exs -> url_bytes exs = 0.
Proof.
  induction 1 as [|ex exs Hex _ IH]; [done|].
  rewrite url_bytes_cons, IH.
  by destruct (Z.eqb_spec (ex_type ex) RSPAMD_EXCEPTION_URL).
Qed.

(** C5 (amended): [get_urls_length] is the sum of the lengths of the
    exceptions of kind url, reduced modulo [2^32] by the [guint]
    accumulator; it is that sum itself whenever the sum fits in a [guint],
    and [0] when the part has no exception of kind url. *)
Theorem get_urls_length_sum_mod (part : rspamd_mime_text_part) :
  lua_textpart_get_urls_length (Some part)
  = Return [LNumber (url_bytes (tp_exceptions part) mod 2 ^ 32)]
  ∧ (0 ≤ url_bytes (tp_exceptions part) < 2 ^ 32 ->
     lua_textpart_get_urls_length (Some part)
     = Return [LNumber (url_bytes (tp_exceptions part))])
  ∧ (Forall (λ ex, ex_type ex ≠ RSPAMD_EXCEPTION_URL) (tp_exceptions part) ->
     lua_textpart_get_urls_length (Some part) = Return [LNumber 0]).
Proof.
  unfold lua_textpart_get_urls_length.
  rewrite urls_length_loop_mod by lia. simpl.
  split; [done|]. split.
  - intros Hfit. by rewrite Z.mod_small.
  - intros Hno. by rewrite url_bytes_no_url.
Qed.

(** *** Attributes of the content type *)

Lemma attrs_loop_lookup_None (attrs : list rspamd_content_type_param)
    (t : gmap string lua_value) (k : string) :
  k ≠ "" ->
  attrs_loop attrs t !! k = None
  <-> t !! k = None ∧ Forall (λ param, param_name param ≠ k) attrs.
Proof.
  intros Hk. revert t. induction attrs as [|param attrs IH]; intros t; simpl.
  - split; [by intros ?; split|by intros [? _]].
  - rewrite IH, Forall_cons. rewrite andb_diag.
    destruct (Z.ltb_spec 0 (ftok_len (param_name param))) as [Hlen|Hlen].
    + unfold lua_settable. rewrite lookup_insert_None. tauto.
    + assert (param_name param = "") as Hempty.
      { unfold ftok_len in Hlen.
        destruct (param_name param); simpl in Hlen; [done|lia]. }
      rewrite Hempty. intuition congruence.
Qed.

Lemma attrs_loop_lookup_other (attrs : list rspamd_content_type_param)
    (t : gmap string lua_value) (k : string) :
  Forall (λ param, param_name param ≠ k) attrs ->
  attrs_loop attrs t !! k = t !! k.
Proof.
  intros Hall. revert t. induction Hall as [|param attrs Hp _ IH]; intros t;
    simpl; [done|].
  rewrite IH. destruct (_ && _); [|done].
  unfold lua_settable. by rewrite lookup_insert_ne.
Qed.

(** C8 (amended): for a part whose content type has a non-empty boundary,
    the attribute table of [get_type_full] is the one-entry table that maps
    ["charset"] to the boundary (whatever the charset is), overlaid with the
    generic attributes.  Hence ["charset"] holds the boundary unless a
    generic attribute is named charset, and a ["boundary"] key is present
    exactly when a generic attribute is named boundary. *)
Theorem get_type_full_boundary_under_charset
    (part : rspamd_mime_part) (ct : rspamd_content_type) :
  mp_ct part = Some ct ->
  0 < ftok_len (ct_boundary ct) ->
  ∃ t : gmap string lua_value,
    lua_mimepart_get_type_full (Some part)
    = Return [LString (ct_type ct); LString (ct_subtype ct); LTable t]
    ∧ t = attrs_loop (ct_attr_list ct)
            {[ "charset" := LString (ct_boundary ct) ]}
    ∧ (Forall (λ param, param_name param ≠ "charset") (ct_attr_list ct) ->
       t !! "charset" = Some (LString (ct_boundary ct)))
    ∧ (t !! "boundary" = None
       <-> Forall (λ param, param_name param ≠ "boundary") (ct_attr_list ct)).
Proof.
  intros Hct Hb.
  unfold lua_mimepart_get_type_full, lua_mimepart_get_type_common.
  rewrite Hct. simpl.
  apply Z.ltb_lt in Hb. rewrite Hb.
  assert (Hbase :
    (if 0 <? ftok_len (ct_charset ct)
     then lua_settable "charset" (LString (ct_boundary ct))
            (lua_settable "charset" (LString (ct_charset ct)) ∅)
     else lua_settable "charset" (LString (ct_boundary ct)) ∅)
    = ({[ "charset" := LString (ct_boundary ct) ]} : gmap string lua_value)).
  { unfold lua_settable. destruct (0 <? ftok_len (ct_charset ct)).
    - by rewrite insert_insert_eq, insert_empty.
    - by rewrite insert_empty. }
  exists (attrs_loop (ct_attr_list ct)
            {[ "charset" := LString (ct_boundary ct) ]}).
  split.
  { unfold ct_attr_list.
    destruct (0 <? ftok_len (ct_charset ct)); simpl in *;
      destruct (ct_attrs ct); simpl; by rewrite ?Hbase. }
  split; [done|]. split.
  - intros Hall. rewrite attrs_loop_lookup_other by done.
    by rewrite lookup_singleton_eq.
  - rewrite attrs_loop_lookup_None by done.
    rewrite lookup_singleton_ne by done. tauto.
Qed.

(** *** Header iteration *)



(** The calls of the loop follow the selected records in order, nothing is
    called after a call that leaves the loop, and the loop stops short of
    the end only after such a call. *)
Lemma headers_loop_calls {S : Type} (cb : lua_callback S)
    (re : option rspamd_lua_regexp) (full raw : bool)
    (cur : list rspamd_mime_header) (st : S) :
  let invs := (headers_loop cb re full raw cur st).2 in
  let selected := filter (λ hdr, regexp_skips re hdr = false) cur in
  inv_header <$> invs `prefix_of` selected
  ∧ (∀ before inv after,
       invs = (before ++ inv :: after)%list ->
       leaves_loop (inv_result inv) = true -> after = [])
  ∧ (inv_header <$> invs = selected
     ∨ ∃ before last,
         invs = (before ++ [last])%list ∧ leaves_loop (inv_result last) = true).
Proof.
  revert st. induction cur as [|hdr next IH]; intros st; simpl.
  - split; [done|]. split; [|by left].
    intros before inv after E. by destruct before.
  - rewrite filter_cons.
    destruct (regexp_skips re hdr) eqn:Hskip.
    + destruct (decide (true = false)) as [|_]; [done|]. apply IH.
    + destruct (decide (false = false)) as [_|]; [|done].
      destruct (cb st _) as [st' r] eqn:Hcall.
      destruct (leaves_loop r) eqn:Hleave; simpl.
      * split; [apply prefix_cons, prefix_nil|]. split.
        -- intros [|inv0 before] inv after E _; simplify_eq/=; [done|].
           by destruct before.
        -- right. eexists [], _. by split.
      * specialize (IH st').
        destruct (headers_loop cb re full raw next st') as [st'' invs'].
        simpl in *. destruct IH as (Hpre & Hlast & Hall).
        split; [by apply prefix_cons|]. split.
        -- intros [|inv0 before] inv after E Hl; simplify_eq/=.
           ++ congruence.
           ++ by eapply Hlast.
        -- destruct Hall as [Heq|(before & last & -> & Hl)].
           ++ left. by rewrite <- Heq.
           ++ right. eexists (_ :: before), last. by split.
Qed.



Lemma filter_all {A : Type} (P : A -> Prop) `{∀ x, Decision (P x)}
    (l : list A) :
  (∀ x, P x) -> filter P l = l.
Proof.
  intros HP. induction l as [|x l IH]; [done|].
  rewrite filter_cons. destruct (decide (P x)) as [_|Hn]; [by rewrite IH|].
  by destruct (Hn (HP x)).
Qed.

(** The parameter block goes through unless [regexp] holds a userdata of
    another class. *)
Lemma foreach_params_defined (arg3 : lua_value) :
  (∀ t, lua_gettable arg3 "regexp" ≠ LText t) ->
  (∀ p, lua_gettable arg3 "regexp" ≠ LMimepart p) ->
  foreach_params arg3 ≠ None.
Proof.
  intros Ht Hp. unfold foreach_params.
  destruct (lua_istable arg3); [|done].
  destruct (lua_gettable arg3 "regexp") eqn:E; simpl; try done.
  - by destruct (Ht t).
  - by destruct (Hp p).
Qed.

(** The records selected by the loop's test are the requested ones. *)
Lemma selected_headers_requested (arg3 : lua_value)
    (part : rspamd_mime_part) :
  foreach_params arg3 ≠ None ->
  selected_headers arg3 part = requested_headers arg3 part.
Proof.
  unfold selected_headers, requested_headers, foreach_params.
  assert (Hall : filter (λ hdr, regexp_skips None hdr = false)
                   (part_headers part) = part_headers part).
  { by apply filter_all. }
  destruct (lua_istable arg3) eqn:Htable.
  - destruct (lua_gettable arg3 "regexp") as [| | | | | |[[rx|]]| |];
      simpl; try done.
    intros _. apply list_filter_iff. intros hdr.
    by destruct (rspamd_regexp_match rx (hdr_name hdr)).
  - intros _.
    assert (lua_gettable arg3 "regexp" = LNil) as ->; [|done].
    by destruct arg3.
Qed.


(** *** Parts flagged empty *)

(** On a part flagged empty the content accessors are absent and the two
    counting accessors answer [0]. *)
Lemma accessors_of_empty_part (part : rspamd_mime_text_part) :
  IS_PART_EMPTY part ≠ 0 ->
  (∀ arg2, lua_textpart_get_content (Some part) arg2 = Return [LNil])
  ∧ lua_textpart_get_raw_content (Some part) = Return [LNil]
  ∧ lua_textpart_get_content_oneline (Some part) = Return [LNil]
  ∧ lua_textpart_get_length (Some part) = Return [LNumber 0]
  ∧ lua_textpart_get_lines_count (Some part) = Return [LNumber 0].
Proof.
  intros Hempty. apply c_true_true in Hempty.
  unfold lua_textpart_get_content, lua_textpart_get_raw_content,
    lua_textpart_get_content_oneline, lua_textpart_get_length,
    lua_textpart_get_lines_count.
  by rewrite Hempty.
Qed.

(** [get_stats] reports the stored line counter, whatever the flags are. *)
Lemma stats_report_nlines (part : rspamd_mime_text_part) :
  ∃ t : gmap string lua_value,
    lua_textpart_get_stats (Some part) = Return [LTable t]
    ∧ t !! "lines" = Some (LNumber (tp_nlines part)).
Proof.
  eexists. split; [reflexivity|].
  unfold lua_settable. do 8 (rewrite lookup_insert_ne by done).
  apply lookup_insert_eq.
Qed.

End Properties.

(** ** The bindings on the concrete parts *)

Example sample_part_views :
  lua_textpart_get_content (Some sample_text_part) LNil
  = push_text 12288 25
  ∧ lua_textpart_get_content (Some sample_text_part)
      (LString "content_oneline") = push_text 20480 23
  ∧ lua_textpart_get_content (Some sample_text_part) (LString "raw_parsed")
    = push_text 8192 40
  ∧ lua_textpart_get_length (Some sample_text_part) = Return [LNumber 25]
  ∧ lua_textpart_get_urls_length (Some sample_text_part)
    = Return [LNumber 25]
  ∧ lua_textpart_is_utf (Some sample_text_part) = Return [LBoolean true].
Proof. repeat split; reflexivity. Qed.

Example sample_headers_walk :
  lua_mimepart_headers_foreach (Some (sample_leaf "plain"))
    (Some sample_callback) LNil 0%nat
  = (2%nat,
     [ {| inv_header := {| hdr_name := "X-A"; hdr_value := "1";
                           hdr_decoded := "1"; hdr_tab_separated := false;
                           hdr_empty_separator := false |};
          inv_args := [LString "X-A"; LString "1"];
          inv_result := PcallReturned [] |};
       {| inv_header := {| hdr_name := "X-A"; hdr_value := "2";
                           hdr_decoded := "2"; hdr_tab_separated := false;
                           hdr_empty_separator := false |};
          inv_args := [LString "X-A"; LString "2"];
          inv_result := PcallReturned [LBoolean true] |} ],
     Return []).
Proof. reflexivity. Qed.

Example gsize_to_lua_number_rounds :
  gsize_to_lua_number (2 ^ 53) = 2 ^ 53
  ∧ gsize_to_lua_number (2 ^ 53 + 1) = 2 ^ 53
  ∧ gsize_to_lua_number (2 ^ 53 + 3) = 2 ^ 53 + 4
  ∧ gsize_to_lua_number (2 ^ 64 - 1) = 2 ^ 64.
Proof. repeat split; reflexivity. Qed.

Example sample_nul_name_c_str :
  c_str sample_nul_name = "raw" ∧ c_str "raw_utf" = "raw_utf".
Proof. split; reflexivity. Qed.

Example sample_headers_regexp :
  foreach_calls (sample_leaf "plain") sample_callback
    (LTable {[ "regexp" := LRegexp {| lre_re := Some 4 |} ]}) 0%nat = []
  ∧ (inv_header <$>
       foreach_calls (sample_leaf "plain") sample_callback
         (LTable {[ "regexp" := LRegexp {| lre_re := Some 3 |} ]}) 0%nat)
    = take 2 sample_headers
  ∧ (lua_mimepart_headers_foreach (Some (sample_leaf "plain"))
       (Some sample_callback)
       (LTable {[ "regexp" := LText {| t_start := 0; t_len := 0;
                                       t_flags := 0 |} ]}) 0%nat).2
    = NullDeref.
Proof. repeat split; reflexivity. Qed.

(** C1, counterexample: on the sample part, which is not empty, ["content"]
    and ["raw_utf"] return views with different start pointers and
    lengths. *)
Lemma get_content_content_raw_utf_differ :
  IS_PART_EMPTY sample_text_part = 0
  ∧ lua_textpart_get_content (Some sample_text_part) (LString "content")
    = push_text 12288 25
  ∧ lua_textpart_get_content (Some sample_text_part) (LString "raw_utf")
    = push_text 16384 40
  ∧ lua_textpart_get_content (Some sample_text_part) (LString "content")
    ≠ lua_textpart_get_content (Some sample_text_part) (LString "raw_utf").
Proof. repeat split; try reflexivity. discriminate. Qed.

Lemma get_content_dispatch_witness :
  IS_PART_EMPTY sample_text_part = 0
  ∧ lua_textpart_get_content (Some sample_text_part) (LString "raw")
    = push_text 4096 52.
Proof.
  split; [reflexivity|].
  destruct (get_content_dispatch (decls := sample_decls) sample_text_part
              eq_refl) as (_ & _ & Hraw & _).
  exact (Hraw "raw" eq_refl).
Defined.

(** C2, the failing input: the sample part flagged empty keeps [3] in its
    line counter; [get_lines_count] answers [0] for it and [get_stats]
    answers [3] under ["lines"]. *)
Theorem get_stats_lines_of_empty_part :
  IS_PART_EMPTY sample_empty_part ≠ 0
  ∧ lua_textpart_get_lines_count (Some sample_empty_part)
    = Return [LNumber 0]
  ∧ ∃ t : gmap string lua_value,
      lua_textpart_get_stats (Some sample_empty_part) = Return [LTable t]
      ∧ t !! "lines" = Some (LNumber 3)
      ∧ t !! "lines" ≠ Some (LNumber 0).
Proof.
  split; [discriminate|]. split; [reflexivity|].
  destruct (stats_report_nlines sample_empty_part) as (t & Ht & Hlines).
  exists t. split; [exact Ht|]. split; [exact Hlines|].
  rewrite Hlines. discriminate.
Qed.

(** C4, counterexample: a multipart part whose child array is present and
    empty gets the empty table, which is neither absent nor non-empty. *)
Lemma get_children_present_but_empty :
  lua_mimepart_get_children (Some (sample_multipart None (Some [])))
  = Return [LArray []]
  ∧ lua_mimepart_get_children (Some (sample_multipart None (Some [])))
    ≠ Return [LNil]
  ∧ ¬ ∃ child rest,
        lua_mimepart_get_children (Some (sample_multipart None (Some [])))
        = Return [LArray (child :: rest)].
Proof.
  split; [reflexivity|]. split; [discriminate|].
  intros (child & rest & E). discriminate.
Qed.

Lemma get_children_absent_or_all_witness :
  lua_mimepart_get_children
    (Some (sample_multipart None
             (Some [sample_leaf "plain"; sample_leaf "html"])))
  = Return [LArray [LMimepart (sample_leaf "plain");
                    LMimepart (sample_leaf "html")]].
Proof.
  destruct (get_children_absent_or_all
              (sample_multipart None
                 (Some [sample_leaf "plain"; sample_leaf "html"])))
    as [_ Hall].
  destruct (Hall [sample_leaf "plain"; sample_leaf "html"]) as [Hret _].
  - discriminate.
  - reflexivity.
  - exact Hret.
Defined.

(** C5, counterexample: two url spans of [2^31] bytes sum to [2^32], and
    [get_urls_length] answers [0]. *)
Lemma get_urls_length_wraps :
  url_bytes (tp_exceptions sample_huge_urls_part) = 4294967296
  ∧ lua_textpart_get_urls_length (Some sample_huge_urls_part)
    = Return [LNumber 0]
  ∧ lua_textpart_get_urls_length (Some sample_huge_urls_part)
    ≠ Return [LNumber (url_bytes (tp_exceptions sample_huge_urls_part))].
Proof. repeat split; try reflexivity. discriminate. Qed.

Lemma get_urls_length_sum_mod_witness :
  lua_textpart_get_urls_length (Some sample_text_part)
  = Return [LNumber (url_bytes (tp_exceptions sample_text_part))].
Proof.
  destruct (get_urls_length_sum_mod sample_text_part) as (_ & Hfit & _).
  apply Hfit. vm_compute. split; [discriminate|reflexivity].
Defined.


(** C7, counterexample: the name of the five bytes [r], [a], [w], NUL, [x]
    is none of the five names, and on the sample part, which is not
    empty, [get_content] serves it as ["raw"] instead of raising an
    error. *)
Lemma get_content_nul_name_is_served :
  (sample_nul_name ∉ content_variants)
  ∧ IS_PART_EMPTY sample_text_part = 0
  ∧ lua_textpart_get_content (Some sample_text_part) (LString sample_nul_name)
    = Return [LText {| t_start := 4096; t_len := 52; t_flags := 0 |}]
  ∧ ∀ msg, lua_textpart_get_content (Some sample_text_part)
             (LString sample_nul_name) ≠ LuaError msg.
Proof.
  split.
  { unfold content_variants. rewrite !not_elem_of_cons.
    repeat split; try discriminate. apply not_elem_of_nil. }
  split; [reflexivity|]. split; [reflexivity|]. discriminate.
Qed.

Lemma get_content_unknown_variant_is_error_witness :
  lua_textpart_get_content (Some sample_text_part) (LString "html")
  = LuaError "invalid content type: html".
Proof.
  destruct (get_content_unknown_variant_is_error sample_text_part "html")
    as [Herr _].
  - reflexivity.
  - unfold content_variants. rewrite !not_elem_of_cons.
    repeat split; try discriminate. apply not_elem_of_nil.
  - exact Herr.
Defined.

(** C8, counterexample: with a generic attribute named boundary, the table
    of [get_type_full] has a ["boundary"] key. *)
Lemma get_type_full_boundary_key_present :
  ∃ t : gmap string lua_value,
    lua_mimepart_get_type_full
      (Some (sample_multipart
               (Some [{| param_name := "boundary";
                         param_value := "frontier" |}]) None))
    = Return [LString "multipart"; LString "mixed"; LTable t]
    ∧ t !! "boundary" = Some (LString "frontier")
    ∧ t !! "boundary" ≠ None.
Proof.
  eexists. split; [reflexivity|]. split; [reflexivity|]. discriminate.
Qed.

Lemma get_type_full_boundary_under_charset_witness :
  ∃ t : gmap string lua_value,
    lua_mimepart_get_type_full
      (Some (sample_multipart
               (Some [{| param_name := "format";
                         param_value := "flowed" |}]) None))
    = Return [LString "multipart"; LString "mixed"; LTable t]
    ∧ t !! "charset" = Some (LString "frontier")
    ∧ t !! "boundary" = None.
Proof.
  destruct (get_type_full_boundary_under_charset
              (sample_multipart
                 (Some [{| param_name := "format";
                           param_value := "flowed" |}]) None)
              {| ct_type := "multipart"; ct_subtype := "mixed";
                 ct_charset := "utf-8"; ct_boundary := "frontier";
                 ct_flags := 2;
                 ct_attrs := Some [{| param_name := "format";
                                      param_value := "flowed" |}] |}
              eq_refl eq_refl)
    as (t & Hret & _ & Hcharset & Hboundary).
  exists t. split; [exact Hret|]. split.
  - apply Hcharset. repeat constructor. discriminate.
  - apply Hboundary. repeat constructor. discriminate.
Defined.

Lemma is_utf_false_when_empty_witness :
  IS_PART_UTF sample_empty_part ≠ 0
  ∧ lua_textpart_is_utf (Some sample_empty_part) = Return [LBoolean false].
Proof.
  split; [discriminate|].
  apply (is_utf_false_when_empty sample_empty_part). discriminate.
Defined.

Lemma get_language_absent_or_nonempty_witness :
  lua_textpart_get_language (Some sample_text_part) = Return [LString "en"]
  ∧ ∃ s, LString "en" = LString s ∧ s ≠ ""
         ∧ tp_language sample_text_part = Some s.
Proof.
  split; [reflexivity|].
  destruct (get_language_absent_or_nonempty sample_text_part)
    as (v & Hret & _ & Hval).
  injection Hret as <-. apply Hval. discriminate.
Defined.

(** ** Further properties of the text part accessors *)

Section TextPartProperties.
Context {decls : libmime_decls}.

(** On a part that is not NULL, [get_content] answers nil exactly when
    the part is flagged empty. *)
Lemma get_content_nil_iff_empty (part : rspamd_mime_text_part)
    (arg2 : lua_value) :
  lua_textpart_get_content (Some part) arg2 = Return [LNil]
  <-> IS_PART_EMPTY part ≠ 0.
Proof.
  simpl. destruct (c_true (IS_PART_EMPTY part)) eqn:E.
  - apply c_true_true in E. by split.
  - apply c_true_false in E. split; [|congruence].
    intros Hnil. exfalso.
    assert (∀ b, byte_array_text b ≠ Return [LNil]) as Hb.
    { intros [a|]; discriminate. }
    destruct arg2; simpl in Hnil; try by apply Hb in Hnil.
    repeat (destruct (strcmp _ _ =? 0) in Hnil;
            [first [by apply Hb in Hnil | discriminate]|]).
    discriminate.
Qed.

(** X1: [get_content] answers nil exactly when the part is NULL or flagged
    empty, whatever its argument is: on such a part an unknown variant name
    raises no error and no member is read, and on any other part the
    answer is never nil. *)
Theorem get_content_absent_iff (part : option rspamd_mime_text_part)
    (arg2 : lua_value) :
  lua_textpart_get_content part arg2 = Return [LNil]
  <-> part = None ∨ ∃ p, part = Some p ∧ IS_PART_EMPTY p ≠ 0.
Proof.
  destruct part as [p|]; [|by split; auto].
  rewrite get_content_nil_iff_empty. split.
  - intros Hne. right. by exists p.
  - intros [|(p' & [= <-] & Hne)]; done.
Qed.

(** X2: the two shortcut accessors are [get_content] at a fixed variant:
    [get_raw_content] is [get_content "raw"] and [get_content_oneline] is
    [get_content "content_oneline"], on every part, NULL and empty ones
    included. *)
Theorem content_shortcuts_agree (part : option rspamd_mime_text_part) :
  lua_textpart_get_raw_content part
  = lua_textpart_get_content part (LString "raw")
  ∧ lua_textpart_get_content_oneline part
    = lua_textpart_get_content part (LString "content_oneline").
Proof.
  destruct part as [p|]; simpl; [|done].
  by destruct (c_true (IS_PART_EMPTY p)).
Qed.

(** X3: [get_length] never reads through a NULL [content]: it returns one
    value on every part, and whenever [get_content] without a variant
    returns a text, [get_length] is the length of that text. *)
Theorem get_length_matches_content (part : option rspamd_mime_text_part) :
  (∃ v, lua_textpart_get_length part = Return [v])
  ∧ ∀ t, lua_textpart_get_content part LNil = Return [LText t] ->
         lua_textpart_get_length part = Return [LNumber (t_len t)].
Proof.
  destruct part as [p|]; simpl; [|split; [by eexists|done]].
  destruct (c_true (IS_PART_EMPTY p)); [split; [by eexists|done]|].
  destruct (tp_content p) as [content|]; simpl.
  - split; [by eexists|]. unfold push_text. by intros t [= <-].
  - split; [by eexists|done].
Qed.

Lemma gsize_to_lua_number_exact (n : Z) :
  n < 2 ^ 53 -> gsize_to_lua_number n = n.
Proof.
  intros Hn. unfold gsize_to_lua_number.
  by destruct (Z.ltb_spec n (2 ^ 53)); [|lia].
Qed.

(** X4: [get_raw_length] is not guarded by the empty flag.  It reports
    [raw.len] itself as long as that is below [2^53] (beyond, the nearest
    double), while the text of [get_raw_content] has the length
    [raw.len] modulo [2^32]; so for a [raw.len] below [2^32] the number is
    the length of that text whenever there is one, and on a part flagged
    empty the number is still reported while the text is nil. *)
Theorem get_raw_length_matches_raw_content (part : rspamd_mime_text_part) :
  (tok_len (tp_raw part) < 2 ^ 53 ->
   lua_textpart_get_raw_length (Some part)
   = Return [LNumber (tok_len (tp_raw part))])
  ∧ (∀ t, lua_textpart_get_raw_content (Some part) = Return [LText t] ->
          t_len t = tok_len (tp_raw part) mod 2 ^ 32)
  ∧ (0 ≤ tok_len (tp_raw part) < 2 ^ 32 ->
     ∀ t, lua_textpart_get_raw_content (Some part) = Return [LText t] ->
          lua_textpart_get_raw_length (Some part)
          = Return [LNumber (t_len t)])
  ∧ (IS_PART_EMPTY part ≠ 0 ->
     lua_textpart_get_raw_content (Some part) = Return [LNil]).
Proof.
  assert (Hlen : ∀ t, lua_textpart_get_raw_content (Some part)
                      = Return [LText t] ->
                      t_len t = tok_len (tp_raw part) mod 2 ^ 32).
  { unfold lua_textpart_get_raw_content, ftok_text, push_text, guint_wrap.
    destruct (c_true (IS_PART_EMPTY part)); [done|]. by intros t [= <-]. }
  split.
  { intros Hfit. unfold lua_textpart_get_raw_length.
    by rewrite gsize_to_lua_number_exact. }
  split; [exact Hlen|]. split.
  - intros Hfit t Ht. rewrite (Hlen t Ht), Z.mod_small by done.
    unfold lua_textpart_get_raw_length.
    by rewrite gsize_to_lua_number_exact by lia.
  - intros Hne. apply c_true_true in Hne.
    unfold lua_textpart_get_raw_content. by rewrite Hne.
Qed.

(** X5: [is_empty] predicts absence: on a part that is not NULL it returns
    a boolean, which is [true] exactly when [get_content] answers nil, for
    whatever argument. *)
Theorem is_empty_iff_content_absent (part : rspamd_mime_text_part)
    (arg2 : lua_value) :
  ∃ b, lua_textpart_is_empty (Some part) = Return [LBoolean b]
       ∧ (b = true
          <-> lua_textpart_get_content (Some part) arg2 = Return [LNil]).
Proof.
  eexists. split; [reflexivity|].
  by rewrite get_content_nil_iff_empty, c_true_true.
Qed.

(** X6: [is_utf] always returns a boolean, also for a NULL part, and it is
    [true] exactly when the part is not NULL, not flagged empty and its utf
    flag is set. *)
Theorem is_utf_true_iff (part : option rspamd_mime_text_part) :
  ∃ b, lua_textpart_is_utf part = Return [LBoolean b]
       ∧ (b = true
          <-> ∃ p, part = Some p ∧ IS_PART_EMPTY p = 0 ∧ IS_PART_UTF p ≠ 0).
Proof.
  destruct part as [p|]; simpl.
  - destruct (c_true (IS_PART_EMPTY p)) eqn:E.
    + exists false. split; [done|]. split; [done|].
      intros (p' & [= <-] & He & _). apply c_true_true in E. contradiction.
    + eexists. split; [reflexivity|]. apply c_true_false in E.
      rewrite c_true_true. split.
      * intros Hu. by exists p.
      * by intros (p' & [= <-] & _ & Hu).
  - exists false. split; [done|]. split; [done|]. by intros (p & ? & _).
Qed.

(** X7: the table of [get_stats] has exactly the nine keys [lines],
    [empty_lines], [spaces], [non_spaces], [double_spaces],
    [ascii_characters], [non_ascii_characters], [capital_letters] and
    [numeric_characters], and every value in it is a number. *)
Theorem get_stats_keys (part : rspamd_mime_text_part) :
  ∃ t : gmap string lua_value,
    lua_textpart_get_stats (Some part) = Return [LTable t]
    ∧ dom t = list_to_set stats_keys
    ∧ size t = 9%nat
    ∧ map_Forall (λ _ v, ∃ n, v = LNumber n) t.
Proof.
  eexists. split; [reflexivity|]. unfold lua_settable.
  assert (Hdom : ∀ t : gmap string lua_value,
            t = <["numeric_characters" := LNumber (tp_numeric_characters part)]>
                 (<["capital_letters" := LNumber (tp_capital_letters part)]>
                  (<["non_ascii_characters" := LNumber (tp_non_ascii_chars part)]>
                   (<["ascii_characters" := LNumber (tp_ascii_chars part)]>
                    (<["double_spaces" := LNumber (tp_double_spaces part)]>
                     (<["non_spaces" := LNumber (tp_non_spaces part)]>
                      (<["spaces" := LNumber (tp_spaces part)]>
                       (<["empty_lines" := LNumber (tp_empty_lines part)]>
                        (<["lines" := LNumber (tp_nlines part)]> ∅)))))))) ->
            dom t = list_to_set stats_keys).
  { intros t ->. rewrite !dom_insert_L, dom_empty_L.
    unfold stats_keys. simpl. set_solver. }
  split; [by apply Hdom|]. split.
  - rewrite <- size_dom, (Hdom _ eq_refl). reflexivity.
  - repeat (apply map_Forall_insert_2; [by eexists|]).
    apply map_Forall_empty.
Qed.

(** X8: on a part that is not flagged empty the two line counts agree: the
    value under [lines] in [get_stats] is the value of [get_lines_count]. *)
Theorem get_stats_lines_match_lines_count (part : rspamd_mime_text_part) :
  IS_PART_EMPTY part = 0 ->
  ∃ (t : gmap string lua_value) v,
    lua_textpart_get_stats (Some part) = Return [LTable t]
    ∧ lua_textpart_get_lines_count (Some part) = Return [v]
    ∧ t !! "lines" = Some v.
Proof.
  intros Hne. apply c_true_false in Hne.
  destruct (stats_report_nlines part) as (t & Ht & Hlines).
  exists t, (LNumber (tp_nlines part)). split; [done|]. split; [|done].
  unfold lua_textpart_get_lines_count. by rewrite Hne.
Qed.

(** *** Length of the urls *)

Lemma url_bytes_Permutation (exs exs' : list rspamd_process_exception) :
  exs ≡ₚ exs' -> url_bytes exs = url_bytes exs'.
Proof.
  induction 1 as [|ex exs exs' _ IH|ex1 ex2 exs|exs1 exs2 exs3 _ IH1 _ IH2].
  - done.
  - by rewrite !url_bytes_cons, IH.
  - rewrite !url_bytes_cons. lia.
  - congruence.
Qed.

(** X9: [get_urls_length] returns a number in the range of a [guint],
    [0 .. 2^32 - 1], on every part that is not NULL. *)
Theorem get_urls_length_in_guint_range (part : rspamd_mime_text_part) :
  ∃ n, lua_textpart_get_urls_length (Some part) = Return [LNumber n]
       ∧ 0 ≤ n < 2 ^ 32.
Proof.
  eexists. split; [reflexivity|].
  rewrite urls_length_loop_mod by lia. apply Z.mod_pos_bound. lia.
Qed.

(** X10: [get_urls_length] does not depend on the order of the exception
    list: two parts whose lists are permutations of each other get the
    same answer. *)
Theorem get_urls_length_order_independent
    (part part' : rspamd_mime_text_part) :
  tp_exceptions part ≡ₚ tp_exceptions part' ->
  lua_textpart_get_urls_length (Some part)
  = lua_textpart_get_urls_length (Some part').
Proof.
  intros Hperm. unfold lua_textpart_get_urls_length.
  rewrite !urls_length_loop_mod by lia.
  by rewrite (url_bytes_Permutation _ _ Hperm).
Qed.

(** *** Words *)

(** X11: on a part that is not NULL, [get_words] returns an array of
    strings and [get_words_count] returns its size; the array holds the
    normalized words in order, and it is empty when the part is flagged
    empty or has no word array. *)
Theorem get_words_count_matches_words (part : rspamd_mime_text_part_words) :
  ∃ words : list string,
    lua_textpart_get_words (Some part) = Return [LArray (LString <$> words)]
    ∧ lua_textpart_get_words_count (Some part)
      = Return [LNumber (Z.of_nat (length (LString <$> words)))]
    ∧ (IS_PART_EMPTY (tw_part part) ≠ 0 ∨ tw_normalized_words part = None ->
       words = [])
    ∧ (IS_PART_EMPTY (tw_part part) = 0 ->
       ∀ ws, tw_normalized_words part = Some ws -> words = ws).
Proof.
  unfold lua_textpart_get_words, lua_textpart_get_words_count.
  destruct (c_true (IS_PART_EMPTY (tw_part part))) eqn:E.
  - apply c_true_true in E. exists []. repeat split; try done.
  - apply c_true_false in E.
    destruct (tw_normalized_words part) as [ws|].
    + exists ws. rewrite length_fmap. repeat split; try done.
      * intros [|]; done.
      * by intros _ ws' [= <-].
    + exists []. repeat split; try done.
Qed.

End TextPartProperties.

(** ** Further properties of the mime part accessors *)

Section MimePartProperties.
Context {decls : libmime_decls}.

Lemma attrs_loop_app (l1 l2 : list rspamd_content_type_param)
    (t : gmap string lua_value) :
  attrs_loop (l1 ++ l2) t = attrs_loop l2 (attrs_loop l1 t).
Proof. revert t. induction l1 as [|param l1 IH]; intros t; simpl; auto. Qed.

Lemma ftok_len_pos (s : string) : (0 <? ftok_len s) = true <-> s ≠ "".
Proof.
  unfold ftok_len. destruct s; simpl; split; done.
Qed.

Lemma attrs_loop_lookup_is_Some (attrs : list rspamd_content_type_param)
    (t : gmap string lua_value) (k : string) :
  is_Some (attrs_loop attrs t !! k)
  <-> is_Some (t !! k) ∨ (k ≠ "" ∧ k ∈ param_name <$> attrs).
Proof.
  revert t. induction attrs as [|param attrs IH]; intros t; simpl.
  - rewrite elem_of_nil. tauto.
  - rewrite IH, andb_diag, elem_of_cons.
    destruct (0 <? ftok_len (param_name param)) eqn:Hlen.
    + apply ftok_len_pos in Hlen. unfold lua_settable.
      rewrite lookup_insert_is_Some.
      destruct (decide (param_name param = k)) as [<-|Hne]; [tauto|].
      intuition congruence.
    + assert (param_name param = "") as Hempty.
      { destruct (param_name param); [done|].
        unfold ftok_len in Hlen. simpl in Hlen.
        apply Z.ltb_ge in Hlen. lia. }
      rewrite Hempty. intuition congruence.
Qed.

(** The attribute table before the generic attributes are written. *)
Lemma get_type_full_table (part : rspamd_mime_part)
    (ct : rspamd_content_type) :
  mp_ct part = Some ct ->
  ∃ t0 : gmap string lua_value,
    lua_mimepart_get_type_full (Some part)
    = Return [LString (ct_type ct); LString (ct_subtype ct);
              LTable (attrs_loop (ct_attr_list ct) t0)]
    ∧ ∀ k, t0 !! k
           = if decide (k = "charset") then
               if 0 <? ftok_len (ct_boundary ct)
               then Some (LString (ct_boundary ct))
               else if 0 <? ftok_len (ct_charset ct)
                    then Some (LString (ct_charset ct))
                    else None
             else None.
Proof.
  intros Hct.
  unfold lua_mimepart_get_type_full, lua_mimepart_get_type_common.
  rewrite Hct. simpl. unfold ct_attr_list, lua_settable.
  eexists. split.
  { destruct (ct_attrs ct); simpl; reflexivity. }
  intros k.
  destruct (0 <? ftok_len (ct_boundary ct)), (0 <? ftok_len (ct_charset ct));
    destruct (decide (k = "charset")) as [->|Hne];
    rewrite ?lookup_insert_eq, ?lookup_insert_ne, ?lookup_empty by done;
    done.
Qed.

(** X12: [get_type_full] extends [get_type]: whenever [get_type] returns
    values, [get_type_full] returns the same values followed by one table,
    except on a NULL part, where both return the same two nils; and the two
    never differ in whether they return at all. *)
Theorem get_type_full_extends_get_type (part : option rspamd_mime_part) :
  (∀ vals, lua_mimepart_get_type part = Return vals ->
     (part = None ∧ vals = [LNil; LNil]
      ∧ lua_mimepart_get_type_full part = Return vals)
     ∨ ∃ t, lua_mimepart_get_type_full part = Return (vals ++ [LTable t]))
  ∧ (lua_mimepart_get_type part = NullDeref
     <-> lua_mimepart_get_type_full part = NullDeref).
Proof.
  unfold lua_mimepart_get_type, lua_mimepart_get_type_full,
    lua_mimepart_get_type_common.
  destruct part as [p|]; simpl.
  - destruct (mp_ct p) as [ct|]; simpl.
    + split; [|done]. intros vals [= <-]. right. by eexists.
    + split; done.
  - split; [|done]. intros vals [= <-]. by left.
Qed.

(** X13: the parts without a content type, which [is_broken] reports as
    broken, are exactly the parts on which [get_type] and [get_type_full]
    read through the NULL content type. *)
Theorem get_type_needs_content_type (part : rspamd_mime_part) :
  (mp_ct part = None <-> lua_mimepart_get_type (Some part) = NullDeref)
  ∧ (mp_ct part = None
     <-> lua_mimepart_get_type_full (Some part) = NullDeref)
  ∧ (mp_ct part = None ->
     lua_mimepart_is_broken (Some part) = Return [LBoolean true]).
Proof.
  unfold lua_mimepart_get_type, lua_mimepart_get_type_full,
    lua_mimepart_get_type_common, lua_mimepart_is_broken. simpl.
  destruct (mp_ct part) as [ct|]; simpl; repeat split; done.
Qed.

(** X14: the keys of the attribute table of [get_type_full] are exactly
    ["charset"], when the charset or the boundary is not empty, and the
    non-empty names of the generic attributes; no other key, and never the
    empty key, is set. *)
Theorem get_type_full_keys (part : rspamd_mime_part)
    (ct : rspamd_content_type) :
  mp_ct part = Some ct ->
  ∃ t : gmap string lua_value,
    lua_mimepart_get_type_full (Some part)
    = Return [LString (ct_type ct); LString (ct_subtype ct); LTable t]
    ∧ ∀ k, is_Some (t !! k)
           <-> (k = "charset"
                ∧ (ct_charset ct ≠ "" ∨ ct_boundary ct ≠ ""))
               ∨ (k ≠ "" ∧ k ∈ param_name <$> ct_attr_list ct).
Proof.
  intros Hct. destruct (get_type_full_table part ct Hct) as (t0 & Hret & Ht0).
  eexists. split; [exact Hret|]. intros k.
  rewrite attrs_loop_lookup_is_Some, Ht0.
  pose proof (ftok_len_pos (ct_boundary ct)) as Hb.
  pose proof (ftok_len_pos (ct_charset ct)) as Hc.
  destruct (decide (k = "charset")) as [->|Hne].
  - destruct (0 <? ftok_len (ct_boundary ct)),
      (0 <? ftok_len (ct_charset ct));
      rewrite ?is_Some_alt; intuition (try congruence; try done).
  - rewrite is_Some_alt. intuition congruence.
Qed.

(** X15: among generic attributes of the same name the last one in
    iteration order wins: a named attribute that is followed by no
    attribute of its name is found in the table with its own value, also
    when its name is ["charset"]. *)
Theorem get_type_full_last_attribute_wins (part : rspamd_mime_part)
    (ct : rspamd_content_type) (before after : list rspamd_content_type_param)
    (param : rspamd_content_type_param) :
  mp_ct part = Some ct ->
  ct_attrs ct = Some (before ++ param :: after)%list ->
  param_name param ≠ "" ->
  Forall (λ other, param_name other ≠ param_name param) after ->
  ∃ t : gmap string lua_value,
    lua_mimepart_get_type_full (Some part)
    = Return [LString (ct_type ct); LString (ct_subtype ct); LTable t]
    ∧ t !! param_name param = Some (LString (param_value param)).
Proof.
  intros Hct Hattrs Hname Hafter.
  destruct (get_type_full_table part ct Hct) as (t0 & Hret & _).
  eexists. split; [exact Hret|].
  unfold ct_attr_list. rewrite Hattrs. simpl.
  rewrite attrs_loop_app. simpl. rewrite andb_diag.
  apply ftok_len_pos in Hname. rewrite Hname.
  rewrite attrs_loop_lookup_other by done.
  unfold lua_settable. apply lookup_insert_eq.
Qed.

(** X16: when the boundary is empty and no generic attribute is named
    charset, ["charset"] holds the charset of the content type if that is
    not empty, and is not set otherwise. *)
Theorem get_type_full_charset_without_boundary (part : rspamd_mime_part)
    (ct : rspamd_content_type) :
  mp_ct part = Some ct ->
  ct_boundary ct = "" ->
  Forall (λ param, param_name param ≠ "charset") (ct_attr_list ct) ->
  ∃ t : gmap string lua_value,
    lua_mimepart_get_type_full (Some part)
    = Return [LString (ct_type ct); LString (ct_subtype ct); LTable t]
    ∧ t !! "charset"
      = if decide (ct_charset ct = "") then None
        else Some (LString (ct_charset ct)).
Proof.
  intros Hct Hb Hall.
  destruct (get_type_full_table part ct Hct) as (t0 & Hret & Ht0).
  eexists. split; [exact Hret|].
  rewrite attrs_loop_lookup_other by done.
  rewrite Ht0, Hb. simpl.
  pose proof (ftok_len_pos (ct_charset ct)) as Hc.
  destruct (decide (ct_charset ct = "")) as [He|He].
  - destruct (0 <? ftok_len (ct_charset ct)); [|done].
    by destruct (proj1 Hc eq_refl).
  - by rewrite (proj2 Hc He).
Qed.

(** X17: [get_children] returns a table only for parts that
    [is_multipart] reports as multipart, and the table has one entry per
    element of the child array. *)
Theorem get_children_implies_is_multipart (part : rspamd_mime_part)
    (items : list lua_value) :
  lua_mimepart_get_children (Some part) = Return [LArray items] ->
  lua_mimepart_is_multipart (Some part) = Return [LBoolean true]
  ∧ ∃ children, mp_children part = Some children
                ∧ length items = length children.
Proof.
  unfold lua_mimepart_get_children, lua_mimepart_is_multipart.
  destruct (c_true (IS_CT_MULTIPART (mp_ct part))); simpl; [|done].
  destruct (mp_children part) as [children|]; [|done].
  intros [= <-]. split; [done|]. exists children.
  by rewrite length_fmap.
Qed.

(** On a mime part that is not NULL, [get_content] and [get_raw_content]
    always return a text, also for a body of length zero, and for a body
    below [2^32] bytes [get_length] is the length of the text of
    [get_content]. *)
Lemma mimepart_length_matches_content (part : rspamd_mime_part_data) :
  ∃ t r,
    lua_mimepart_get_content (Some part) = Return [LText t]
    ∧ lua_mimepart_get_raw_content (Some part) = Return [LText r]
    ∧ t_start t = tok_begin (mpd_parsed_data part)
    ∧ t_len t = tok_len (mpd_parsed_data part) mod 2 ^ 32
    ∧ t_start r = tok_begin (mpd_raw_data part)
    ∧ t_len r = tok_len (mpd_raw_data part) mod 2 ^ 32
    ∧ (0 ≤ tok_len (mpd_parsed_data part) < 2 ^ 32 ->
       lua_mimepart_get_length (Some part) = Return [LNumber (t_len t)]).
Proof.
  eexists _, _. repeat split. simpl. intros Hfit.
  unfold guint_wrap. rewrite Z.mod_small by done.
  by rewrite gsize_to_lua_number_exact by lia.
Qed.

(** X18: [get_filename] answers nil exactly when the part is NULL, has no
    content disposition or has an empty file name; any other answer is the
    stored file name, which is not empty. *)
Theorem get_filename_absent_or_nonempty
    (part : option rspamd_mime_part_data) :
  ∃ v, lua_mimepart_get_filename part = Return [v]
       ∧ (v = LNil
          <-> part = None
              ∨ ∃ p, part = Some p
                     ∧ (mpd_cd p = None
                        ∨ mpd_cd p = Some {| cd_filename := "" |}))
       ∧ (v ≠ LNil ->
          ∃ p cd, part = Some p ∧ mpd_cd p = Some cd
                  ∧ v = LString (cd_filename cd) ∧ cd_filename cd ≠ "").
Proof.
  destruct part as [p|]; simpl.
  - destruct (mpd_cd p) as [[filename]|] eqn:Hcd; simpl.
    + destruct filename as [|c rest]; simpl.
      * exists LNil. split; [done|]. split; [|done].
        split; [|done]. intros _. right. exists p. split; [done|]. by right.
      * exists (LString (String c rest)). split; [done|]. split.
        -- split; [done|].
           intros [|(p' & [= <-] & [|])]; congruence.
        -- intros _. by eexists p, _.
    + exists LNil. split; [done|]. split; [|done].
      split; [|done]. intros _. right. exists p. split; [done|]. by left.
  - exists LNil. split; [done|]. split; [|done]. split; auto.
Qed.

End MimePartProperties.

(** ** Further properties of the header traversal *)

Section TraversalProperties.
Context {decls : libmime_decls}.

(** [headers_foreach] with a part and a callback either reads through a
    NULL regexp pointer before any call, or runs the loop over the part's
    headers and returns nothing. *)
Lemma headers_foreach_cases {S : Type} (part : rspamd_mime_part)
    (cb : lua_callback S) (arg3 : lua_value) (st : S) :
  (foreach_params arg3 = None
   ∧ lua_mimepart_headers_foreach (Some part) (Some cb) arg3 st
     = (st, [], NullDeref))
  ∨ ∃ full raw re,
      foreach_params arg3 = Some (full, raw, re)
      ∧ lua_mimepart_headers_foreach (Some part) (Some cb) arg3 st
        = ((headers_loop cb re full raw (part_headers part) st).1,
           (headers_loop cb re full raw (part_headers part) st).2,
           Return []).
Proof.
  unfold lua_mimepart_headers_foreach, part_headers.
  destruct (foreach_params arg3) as [[[full raw] re]|]; [|by left].
  right. exists full, raw, re. split; [done|].
  destruct (mp_headers_order part) as [headers_order|]; simpl; [|done].
  by destruct (headers_loop cb re full raw headers_order st).
Qed.

Lemma headers_loop_never_leaves {S : Type} (cb : lua_callback S)
    (re : option rspamd_lua_regexp) (full raw : bool)
    (cur : list rspamd_mime_header) (st : S) :
  never_leaves cb ->
  inv_header <$> (headers_loop cb re full raw cur st).2
  = filter (λ hdr, regexp_skips re hdr = false) cur.
Proof.
  intros Hnl. revert st. induction cur as [|hdr next IH]; intros st; simpl.
  - done.
  - rewrite filter_cons. destruct (regexp_skips re hdr) eqn:Hskip.
    + destruct (decide (true = false)) as [|_]; [done|]. apply IH.
    + destruct (decide (false = false)) as [_|]; [|done].
      pose proof (Hnl st [LString (hdr_name hdr);
                          rspamd_lua_push_header hdr full raw]) as Hcall.
      destruct (cb st _) as [st' r]. simpl in Hcall. rewrite Hcall.
      specialize (IH st').
      destruct (headers_loop cb re full raw next st') as [st'' invs].
      simpl in *. by f_equal.
Qed.

Lemma headers_loop_args {S : Type} (cb : lua_callback S)
    (re : option rspamd_lua_regexp) (full raw : bool)
    (cur : list rspamd_mime_header) (st : S) :
  Forall (λ inv, inv_args inv
                 = [LString (hdr_name (inv_header inv));
                    rspamd_lua_push_header (inv_header inv) full raw])
    (headers_loop cb re full raw cur st).2.
Proof.
  revert st. induction cur as [|hdr next IH]; intros st; simpl.
  - constructor.
  - destruct (regexp_skips re hdr); [apply IH|].
    destruct (cb st _) as [st' r].
    destruct (leaves_loop r); simpl.
    + by repeat constructor.
    + specialize (IH st').
      destruct (headers_loop cb re full raw next st') as [st'' invs].
      simpl in *. by constructor.
Qed.

Lemma headers_loop_replays {S : Type} (cb : lua_callback S)
    (re : option rspamd_lua_regexp) (full raw : bool)
    (cur : list rspamd_mime_header) (st : S) :
  replays cb st (headers_loop cb re full raw cur st).2
    (headers_loop cb re full raw cur st).1.
Proof.
  revert st. induction cur as [|hdr next IH]; intros st; simpl.
  - done.
  - destruct (regexp_skips re hdr); [apply IH|].
    destruct (cb st _) as [st' r] eqn:Hcall.
    destruct (leaves_loop r); simpl.
    + exists st'. by split.
    + specialize (IH st').
      destruct (headers_loop cb re full raw next st') as [st'' invs].
      simpl in *. exists st'. by split.
Qed.


(** X19: a callback that never fails and whose first result is never the
    boolean [true] is called once for every requested header, in
    insertion order: results such as a number, a string, [false] or
    nothing do not stop the traversal. *)
Theorem headers_foreach_visits_all {S : Type} (part : rspamd_mime_part)
    (cb : lua_callback S) (arg3 : lua_value) (st : S) :
  (∀ st args, ∃ rets, (cb st args).2 = PcallReturned rets
                      ∧ ∀ rest, rets ≠ LBoolean true :: rest) ->
  (∀ t, lua_gettable arg3 "regexp" ≠ LText t) ->
  (∀ p, lua_gettable arg3 "regexp" ≠ LMimepart p) ->
  inv_header <$> foreach_calls part cb arg3 st = requested_headers arg3 part
  ∧ length (foreach_calls part cb arg3 st)
    = length (requested_headers arg3 part)
  ∧ (lua_gettable arg3 "regexp" = LNil ->
     inv_header <$> foreach_calls part cb arg3 st = part_headers part).
Proof.
  intros Hcb Ht Hp.
  assert (never_leaves cb) as Hnl.
  { intros st0 args. destruct (Hcb st0 args) as (rets & -> & Hrets).
    simpl. destruct rets as [|[|[|]| | | | | | |] rest]; try done.
    by destruct (Hrets rest). }
  pose proof (foreach_params_defined arg3 Ht Hp) as Hparams.
  assert (inv_header <$> foreach_calls part cb arg3 st
          = requested_headers arg3 part) as Hall.
  { rewrite <- selected_headers_requested by done.
    unfold foreach_calls, selected_headers.
    destruct (headers_foreach_cases part cb arg3 st)
      as [[Hnone _]|(full & raw & re & Hpar & ->)]; [done|].
    rewrite Hpar. simpl. by apply headers_loop_never_leaves. }
  split; [done|]. split; [by rewrite <- Hall, length_fmap|].
  intros Hnil. rewrite Hall. unfold requested_headers. by rewrite Hnil.
Qed.

(** X20: a failure of the callback ([lua_pcall] other than [0]) ends the
    traversal: no call follows a call that failed. *)
Theorem headers_foreach_failure_stops {S : Type} (part : rspamd_mime_part)
    (cb : lua_callback S) (arg3 : lua_value) (st : S)
    (before : list invocation) (inv : invocation) (after : list invocation)
    (err : string) :
  foreach_calls part cb arg3 st = (before ++ inv :: after)%list ->
  inv_result inv = PcallFailed err ->
  after = [].
Proof.
  unfold foreach_calls.
  destruct (headers_foreach_cases part cb arg3 st)
    as [[_ ->]|(full & raw & re & _ & ->)]; simpl.
  - intros E. by destruct before.
  - intros E Hfail.
    destruct (headers_loop_calls cb re full raw (part_headers part) st)
      as (_ & Hlast & _).
    eapply Hlast; [exact E|]. by rewrite Hfail.
Qed.

(** X21: every call passes exactly two arguments, the name of the header
    and the header as pushed by [rspamd_lua_push_header] with the [full]
    and [raw] options; an option is on exactly when the parameter table
    holds the boolean [true] under its name. *)
Theorem headers_foreach_call_arguments {S : Type} (part : rspamd_mime_part)
    (cb : lua_callback S) (arg3 : lua_value) (st : S) :
  ∃ full raw,
    (full = true <-> lua_gettable arg3 "full" = LBoolean true)
    ∧ (raw = true <-> lua_gettable arg3 "raw" = LBoolean true)
    ∧ Forall (λ inv, inv_args inv
                     = [LString (hdr_name (inv_header inv));
                        rspamd_lua_push_header (inv_header inv) full raw])
        (foreach_calls part cb arg3 st).
Proof.
  assert (Hopt : ∀ k, opt_boolean (lua_gettable arg3 k) false = true
                      <-> lua_gettable arg3 k = LBoolean true).
  { intros k. destruct (lua_gettable arg3 k) as [|[]| | | | | | |];
      simpl; split; congruence. }
  exists (opt_boolean (lua_gettable arg3 "full") false),
    (opt_boolean (lua_gettable arg3 "raw") false).
  split; [apply Hopt|]. split; [apply Hopt|].
  unfold foreach_calls.
  destruct (headers_foreach_cases part cb arg3 st)
    as [[_ ->]|(full & raw & re & Hp & ->)]; simpl; [constructor|].
  assert (full = opt_boolean (lua_gettable arg3 "full") false
          ∧ raw = opt_boolean (lua_gettable arg3 "raw") false) as [<- <-].
  { unfold foreach_params in Hp.
    destruct (lua_istable arg3) eqn:Htable.
    - destruct (lua_isuserdata (lua_gettable arg3 "regexp")).
      + destruct (lua_gettable arg3 "regexp"); by simplify_eq.
      + by simplify_eq.
    - simplify_eq. destruct arg3; simpl in *; done. }
  apply headers_loop_args.
Qed.

(** The recorded calls account for the interpreter state: running the
    callback on the recorded arguments, one call after the other from the
    initial state, gives the recorded results and ends in the state that
    [headers_foreach] leaves. *)
Lemma headers_foreach_threads_state {S : Type} (part : rspamd_mime_part)
    (cb : lua_callback S) (arg3 : lua_value) (st : S) :
  replays cb st (foreach_calls part cb arg3 st)
    (lua_mimepart_headers_foreach (Some part) (Some cb) arg3 st).1.1.
Proof.
  unfold foreach_calls.
  destruct (headers_foreach_cases part cb arg3 st)
    as [[_ ->]|(full & raw & re & _ & ->)]; simpl; [done|].
  apply headers_loop_replays.
Qed.



End TraversalProperties.

(** ** The further properties on the concrete parts *)

Lemma get_length_matches_content_witness :
  lua_textpart_get_length (Some sample_text_part) = Return [LNumber 25].
Proof.
  destruct (get_length_matches_content (Some sample_text_part)) as [_ Hlen].
  apply (Hlen {| t_start := 12288; t_len := 25; t_flags := 0 |}).
  reflexivity.
Defined.

Lemma get_raw_length_matches_raw_content_witness :
  lua_textpart_get_raw_length (Some sample_empty_part) = Return [LNumber 52]
  ∧ lua_textpart_get_raw_content (Some sample_empty_part) = Return [LNil]
  ∧ lua_textpart_get_raw_length (Some sample_text_part)
    = Return [LNumber 52].
Proof.
  destruct (get_raw_length_matches_raw_content sample_empty_part)
    as (Hlen & _ & _ & Hnil).
  destruct (get_raw_length_matches_raw_content sample_text_part)
    as (_ & _ & Hsame & _).
  split; [apply Hlen; reflexivity|]. split; [apply Hnil; discriminate|].
  apply (Hsame ltac:(split; [discriminate|reflexivity])
           {| t_start := 4096; t_len := 52; t_flags := 0 |}).
  reflexivity.
Defined.

Lemma get_stats_lines_match_lines_count_witness :
  ∃ (t : gmap string lua_value) v,
    lua_textpart_get_stats (Some sample_text_part) = Return [LTable t]
    ∧ lua_textpart_get_lines_count (Some sample_text_part) = Return [v]
    ∧ t !! "lines" = Some v.
Proof.
  apply (get_stats_lines_match_lines_count sample_text_part). reflexivity.
Defined.

Lemma get_urls_length_order_independent_witness :
  lua_textpart_get_urls_length
    (Some (sample_part_with_exceptions
             (reverse (tp_exceptions sample_text_part))))
  = lua_textpart_get_urls_length (Some sample_text_part).
Proof.
  apply (get_urls_length_order_independent
           (sample_part_with_exceptions
              (reverse (tp_exceptions sample_text_part)))
           sample_text_part).
  apply reverse_Permutation.
Defined.

Lemma get_words_count_matches_words_witness :
  lua_textpart_get_words_count (Some sample_words_part)
  = Return [LNumber 3].
Proof.
  destruct (get_words_count_matches_words sample_words_part)
    as (words & _ & Hcount & _ & Hwords).
  rewrite (Hwords eq_refl _ eq_refl) in Hcount. exact Hcount.
Defined.

Lemma get_type_full_extends_get_type_witness :
  ∃ t, lua_mimepart_get_type_full (Some (sample_leaf "plain"))
       = Return [LString "text"; LString "plain"; LTable t].
Proof.
  destruct (get_type_full_extends_get_type (Some (sample_leaf "plain")))
    as [Hext _].
  destruct (Hext [LString "text"; LString "plain"] eq_refl)
    as [(Hnone & _)|Hfull]; [discriminate|exact Hfull].
Defined.

Lemma get_type_needs_content_type_witness :
  lua_mimepart_is_broken (Some (sample_untyped_part None))
  = Return [LBoolean true]
  ∧ lua_mimepart_get_type (Some (sample_untyped_part None)) = NullDeref.
Proof.
  destruct (get_type_needs_content_type (sample_untyped_part None))
    as (Htype & _ & Hbroken).
  split; [by apply Hbroken|by apply Htype].
Defined.

Lemma get_type_full_keys_witness :
  ∃ t : gmap string lua_value,
    lua_mimepart_get_type_full
      (Some (sample_multipart
               (Some [{| param_name := "format";
                         param_value := "flowed" |}]) None))
    = Return [LString "multipart"; LString "mixed"; LTable t]
    ∧ is_Some (t !! "format") ∧ ¬ is_Some (t !! "boundary").
Proof.
  destruct (get_type_full_keys
              (sample_multipart
                 (Some [{| param_name := "format";
                           param_value := "flowed" |}]) None)
              _ eq_refl) as (t & Hret & Hkeys).
  exists t. split; [exact Hret|]. split.
  - apply Hkeys. right. split; [discriminate|]. simpl. by left.
  - intros Hsome. apply Hkeys in Hsome as [[? _]|[_ Hin]]; [discriminate|].
    simpl in Hin. apply list_elem_of_singleton in Hin. discriminate.
Defined.

Lemma get_type_full_last_attribute_wins_witness :
  ∃ t : gmap string lua_value,
    lua_mimepart_get_type_full
      (Some (sample_multipart
               (Some [{| param_name := "format"; param_value := "flowed" |};
                      {| param_name := "format"; param_value := "fixed" |}])
               None))
    = Return [LString "multipart"; LString "mixed"; LTable t]
    ∧ t !! "format" = Some (LString "fixed").
Proof.
  destruct (get_type_full_last_attribute_wins
              (sample_multipart
                 (Some [{| param_name := "format"; param_value := "flowed" |};
                        {| param_name := "format"; param_value := "fixed" |}])
                 None)
              _ [{| param_name := "format"; param_value := "flowed" |}] []
              {| param_name := "format"; param_value := "fixed" |}
              eq_refl eq_refl) as (t & Hret & Hlast).
  - discriminate.
  - constructor.
  - exists t. split; [exact Hret|exact Hlast].
Defined.

Lemma get_type_full_charset_without_boundary_witness :
  ∃ t : gmap string lua_value,
    lua_mimepart_get_type_full (Some (sample_leaf "plain"))
    = Return [LString "text"; LString "plain"; LTable t]
    ∧ t !! "charset" = Some (LString "utf-8").
Proof.
  destruct (get_type_full_charset_without_boundary (sample_leaf "plain") _
              eq_refl eq_refl) as (t & Hret & Hcharset).
  - constructor.
  - exists t. split; [exact Hret|exact Hcharset].
Defined.

Lemma get_children_implies_is_multipart_witness :
  lua_mimepart_is_multipart
    (Some (sample_multipart None (Some [sample_leaf "plain"])))
  = Return [LBoolean true].
Proof.
  apply (get_children_implies_is_multipart
           (sample_multipart None (Some [sample_leaf "plain"]))
           [LMimepart (sample_leaf "plain")]).
  reflexivity.
Defined.

Lemma get_filename_absent_or_nonempty_witness :
  lua_mimepart_get_filename (Some sample_part_data)
  = Return [LString "report.pdf"].
Proof.
  destruct (get_filename_absent_or_nonempty (Some sample_part_data))
    as (v & Hret & _ & Hval).
  rewrite Hret. injection Hret as <-.
  destruct Hval as (p & cd & _ & _ & _ & _); [discriminate|reflexivity].
Defined.

Lemma headers_foreach_visits_all_witness :
  inv_header <$>
    foreach_calls
      (sample_untyped_part
         (Some (sample_headers ++ [sample_late_header])%list))
      mixed_callback LNil 0%nat
  = (sample_headers ++ [sample_late_header])%list.
Proof.
  destruct (headers_foreach_visits_all
              (sample_untyped_part
                 (Some (sample_headers ++ [sample_late_header])%list))
              mixed_callback LNil 0%nat) as (_ & _ & Hall).
  - intros st args. eexists. split; [reflexivity|].
    intros rest. destruct st as [|[|[|st]]]; discriminate.
  - discriminate.
  - discriminate.
  - apply Hall. reflexivity.
Defined.

Lemma headers_foreach_failure_stops_witness :
  drop 2 (foreach_calls (sample_leaf "plain") failing_callback LNil 0%nat)
  = [].
Proof.
  eapply (headers_foreach_failure_stops (sample_leaf "plain")
            failing_callback LNil 0%nat [_] _ _
            "attempt to call a nil value"); reflexivity.
Defined.


